(** * Obot Core (core/autobot.py): a shallow embedding and its properties

    The module has two parts with behaviour of their own:
    - [RiskManager.calculate_lot_size], arithmetic on Python floats
      (IEEE-754 binary64, modelled with the Standard Library's [SpecFloat]);
    - [ObotCore], the orchestration loop, modelled in a state-and-exception
      monad over an abstract outside world, instrumented with a trace of the
      calls that leave the core (collaborator calls, log records, sleeps). *)

From Stdlib Require Import ZArith Bool List Lia.
From Stdlib.Floats Require Import SpecFloat.
From stdpp Require Import base option list strings gmap.

Local Open Scope string_scope.
Local Open Scope Z_scope.

(** ** Python exceptions and outcomes *)

(** A raised exception: its class name, whether the class derives from
    [Exception] (what [except Exception] catches; [KeyboardInterrupt],
    [SystemExit] and [GeneratorExit] derive from [BaseException] only), and
    [str(e)]. *)
Record exn := Exn {
  exn_class : string;
  is_Exception : bool;
  exn_str : string
}.

Inductive outcome (A : Type) : Type :=
| Ok (a : A)
| Raise (e : exn).
Arguments Ok {A} a.
Arguments Raise {A} e.

Definition NotImplementedError : exn := Exn "NotImplementedError" true "".
Definition KeyError (key : string) : exn := Exn "KeyError" true ("'" ++ key ++ "'").
Definition AttributeError (msg : string) : exn := Exn "AttributeError" true msg.
Definition TypeError (msg : string) : exn := Exn "TypeError" true msg.
Definition ZeroDivisionError : exn :=
  Exn "ZeroDivisionError" true "float division by zero".

(** ** Python floats: IEEE-754 binary64 *)

Module PyFloat.

Definition prec : Z := 53.
Definition emax : Z := 1024.

Abbreviation float := spec_float.

Definition fmul : float -> float -> float := SFmul prec emax.
Definition fdiv : float -> float -> float := SFdiv prec emax.

(** A float object always carries a canonical binary64 representation. *)
Definition wf (x : float) : bool := valid_binary prec emax x.

Definition is_zero (x : float) : bool :=
  match x with S754_zero _ => true | _ => false end.

Definition is_finite (x : float) : bool :=
  match x with S754_zero _ | S754_finite _ _ _ => true | _ => false end.

(** [x / y] on floats: [ZeroDivisionError] for a zero divisor (of either
    sign), the IEEE quotient otherwise (overflow gives an infinity, it does
    not raise). *)
Definition truediv (x y : float) : outcome float :=
  if is_zero y then Raise ZeroDivisionError else Ok (fdiv x y).

(** [float(n)], the double nearest to the int [n] (used for int literals
    such as the [10] of [sl_pips * 10], which are far from the range where
    Python would raise OverflowError). *)
Definition of_int (n : Z) : float :=
  match n with
  | Z0 => S754_zero false
  | Zpos p => binary_round prec emax false p 0
  | Zneg p => binary_round prec emax true p 0
  end.

(** Comparisons with the int literal [0]. *)
Definition gt0 (x : float) : bool := SFltb (S754_zero false) x.
Definition ge0 (x : float) : bool := SFleb (S754_zero false) x.
Definition lt0 (x : float) : bool := SFltb x (S754_zero false).
Definition le0 (x : float) : bool := SFleb x (S754_zero false).
Definition eq0 (x : float) : bool := SFeqb x (S754_zero false).

(** ** [round(x, 2)]

    CPython rounds the exact binary value of [x] to two decimals (ties to
    even) and converts the resulting decimal back to the nearest double;
    NaN and infinities are returned unchanged. [hundredths] is the first
    step on the magnitude [m * 2^e]; the conversion back is the correctly
    rounded quotient of the integer by 100. *)
Definition round_half_even (n d : Z) : Z :=
  let q := n / d in
  let r := n mod d in
  match 2 * r ?= d with
  | Lt => q
  | Gt => q + 1
  | Eq => if Z.even q then q else q + 1
  end.

Definition hundredths (m : positive) (e : Z) : Z :=
  match e with
  | Zneg p => round_half_even (Zpos m * 100) (2 ^ Zpos p)
  | _ => Zpos m * 100 * 2 ^ e
  end.

Definition round2 (x : float) : float :=
  match x with
  | S754_finite s m e =>
      match hundredths m e with
      | Zpos n => fdiv (S754_finite s n 0) (S754_finite false 100 0)
      | _ => S754_zero s
      end
  | _ => x
  end.

(** ** Vocabulary for the properties of floats *)

Definition ten : float := Eval vm_compute in of_int 10.
Definition one : float := Eval vm_compute in of_int 1.
Definition two : float := Eval vm_compute in of_int 2.

(** [x] is a zero, a finite number or an infinity of sign [s] (so not a
    NaN). *)
Definition has_sign (s : bool) (x : float) : Prop :=
  match x with
  | S754_zero s' | S754_infinity s' | S754_finite s' _ _ => s' = s
  | S754_nan => False
  end.

Definition nonzero_with_sign (s : bool) (x : float) : Prop :=
  match x with
  | S754_infinity s' | S754_finite s' _ _ => s' = s
  | _ => False
  end.

(** The amount by which [shr_fexp] shifts a mantissa of exponent [e]. *)
Definition shift_of (m e : Z) : Z :=
  Z.max (fexp prec emax (Zdigits2 m + e) - e) 0.

(** After [k] halvings of [M]: the mantissa is the quotient, and a raised
    round or sticky bit means that the division was not exact. *)
Definition shifted (M k : Z) (mrs : shr_record) : Prop :=
  shr_m mrs = M / 2 ^ k
  /\ (shr_r mrs || shr_s mrs = true -> M mod 2 ^ k <> 0).

(** A finite float away from both ends of the exponent range: not in the
    two lowest binades (so not subnormal) and below the top binade (so that
    twice the float is finite). *)
Definition roomy (x : float) : bool :=
  match x with
  | S754_finite _ _ e => (-1072 <=? e) && (e <? 971)
  | _ => false
  end.

(** Exactly twice a finite float: the same mantissa, the next exponent. *)
Definition double (x : float) : float :=
  match x with
  | S754_finite s m e => S754_finite s m (e + 1)
  | _ => x
  end.

End PyFloat.

(** ** [RiskManager] *)

Module RiskManager.
Import PyFloat.

(** [calculate_lot_size(account_balance, risk_percent, sl_pips)], on
    arguments of the annotated type [float] (an int argument that a double
    holds exactly behaves as that double). [lot_size] is the value of the
    local variable of that name, before [round]; the only step that can raise
    is the division. *)
Definition lot_size (account_balance risk_percent sl_pips : float) : outcome float :=
  let risk_amount := fmul account_balance risk_percent in
  truediv risk_amount (fmul sl_pips (of_int 10)).

Definition calculate_lot_size (account_balance risk_percent sl_pips : float)
  : outcome float :=
  match lot_size account_balance risk_percent sl_pips with
  | Ok lot_size => Ok (round2 lot_size)
  | Raise e => Raise e
  end.

(** The inputs the contract of the sizer calls valid: [b > 0],
    [0 < r <= 1] and [d > 0] as Python evaluates them on floats (so a NaN is
    not valid, and an infinite balance or stop distance is). *)
Definition valid_inputs (b r d : float) : bool :=
  wf b && wf r && wf d
  && gt0 b && gt0 r && SFleb r one && gt0 d.

(** The sizing formula in the words of the specification:
    [(accountBalance * riskFraction) / (stopDistance * pipValueConstant)],
    rounded to 2 decimal places, in the arithmetic of the program. *)
Definition pip_value_constant : float := ten.

Definition size_spec (accountBalance riskFraction stopDistance : float) : float :=
  round2 (fdiv (fmul accountBalance riskFraction)
               (fmul stopDistance pip_value_constant)).

(** The outcome of a call, with the sign of the size changed when there
    is one. *)
Definition negated (o : outcome float) : outcome float :=
  match o with
  | Ok size => Ok (SFopp size)
  | Raise e => Raise e
  end.

End RiskManager.

(** ** Values a strategy may hand back *)

Inductive pyval :=
| VNone
| VBool (b : bool)
| VInt (n : Z)
| VFloat (x : PyFloat.float)
| VStr (s : string).

(** What [generate_signal] returns: a dict, or some other object (which has
    no [get] attribute and no subscript). *)
Inductive pyobj :=
| ODict (d : gmap string pyval)
| OVal (v : pyval).

Definition type_name (v : pyval) : string :=
  match v with
  | VNone => "NoneType"
  | VBool _ => "bool"
  | VInt _ => "int"
  | VFloat _ => "float"
  | VStr _ => "str"
  end.

(** [v != 0] *)
Definition py_ne_0 (v : pyval) : bool :=
  match v with
  | VNone | VStr _ => true
  | VBool b => b
  | VInt n => negb (n =? 0)
  | VFloat x => negb (PyFloat.eq0 x)
  end.

(** [v > 0] *)
Definition py_gt_0 (v : pyval) : outcome bool :=
  match v with
  | VBool b => Ok b
  | VInt n => Ok (0 <? n)
  | VFloat x => Ok (PyFloat.gt0 x)
  | VNone | VStr _ =>
      Raise (TypeError ("'>' not supported between instances of '"
                        ++ type_name v ++ "' and 'int'"))
  end.

(** [o.get(key, default)] *)
Definition py_get (o : pyobj) (key : string) (dflt : pyval) : outcome pyval :=
  match o with
  | ODict d => Ok (default dflt (d !! key))
  | OVal v => Raise (AttributeError ("'" ++ type_name v
                                     ++ "' object has no attribute 'get'"))
  end.

(** [o[key]] *)
Definition py_getitem (o : pyobj) (key : string) : outcome pyval :=
  match o with
  | ODict d =>
      match d !! key with
      | Some v => Ok v
      | None => Raise (KeyError key)
      end
  | OVal (VStr _) => Raise (TypeError "string indices must be integers, not 'str'")
  | OVal v => Raise (TypeError ("'" ++ type_name v
                                ++ "' object is not subscriptable"))
  end.

(** ** Module configuration *)

(** [datetime.time]: naive times compare as the tuples
    [(hour, minute, second, microsecond)]. *)
Record time := Time {
  hour : Z;
  minute : Z;
  second : Z;
  microsecond : Z
}.

Definition time_cmp (a b : time) : comparison :=
  match hour a ?= hour b with
  | Eq =>
      match minute a ?= minute b with
      | Eq =>
          match second a ?= second b with
          | Eq => microsecond a ?= microsecond b
          | c => c
          end
      | c => c
      end
  | c => c
  end.

(** [a <= b] *)
Definition time_le (a b : time) : bool :=
  match time_cmp a b with Gt => false | _ => true end.

(** [a < b] *)
Definition time_lt (a b : time) : bool :=
  match time_cmp a b with Lt => true | _ => false end.

(** The module-level names the orchestrator reads when it runs. *)
Record globals := Globals {
  PAIRS : list string;
  TRADING_SESSION_START : time;
  TRADING_SESSION_END : time;
  RISK_PERCENT_PER_TRADE : PyFloat.float;
  MAX_CONCURRENT_TRADES_PER_PAIR : Z
}.

(** Their values in the module ([RISK_PERCENT_PER_TRADE] is the float
    [0.01]; no function of the module reads it). *)
Definition module_globals : globals := {|
  PAIRS := ["EURUSD"; "GBPUSD"; "USDJPY"; "USDCHF"; "AUDUSD"; "USDCAD"; "NZDUSD"];
  TRADING_SESSION_START := Time 8 0 0 0;
  TRADING_SESSION_END := Time 12 0 0 0;
  RISK_PERCENT_PER_TRADE := S754_finite false 5764607523034235 (-59);
  MAX_CONCURRENT_TRADES_PER_PAIR := 1
|}.

(** ** The outside world, the collaborators and the trace *)

Inductive log_level := INFO | ERROR.

(** What leaves the core, in order. [Etrader] stands for a call of a
    method of [self.trader]; the only such call in the module is commented
    out, so no computation below emits it. *)
Inductive event :=
| Efetch_candles (pair timeframe : string) (count : Z)
| Egenerate_signal (pair : string)
| Etrader (method : string)
| Elog (level : log_level) (msg : string)
| Esleep (secs : Z).

Section Core.

(** [W]: everything outside the core (broker, network, clock, the
    collaborators' own state). [DataFrame]: [pd.DataFrame], opaque here. *)
Context {W DataFrame : Type}.

(** The collaborator interfaces: a method takes the world and gives back an
    outcome and the world after the call. *)
Record DataProvider := {
  fetch_candles : string -> string -> Z -> W -> outcome DataFrame * W
}.

Record Trader := {
  place_order : string -> string -> PyFloat.float -> PyFloat.float -> PyFloat.float
                -> W -> outcome (gmap string pyval) * W;
  get_open_positions : option string -> W -> outcome (list (gmap string pyval)) * W;
  close_position : string -> W -> outcome bool * W
}.

Record Strategy := {
  generate_signal : string -> DataFrame -> W -> outcome pyobj * W
}.

(** The base classes of the module. *)
Definition DataProvider_base : DataProvider :=
  {| fetch_candles := fun _ _ _ w => (Raise NotImplementedError, w) |}.

Definition Trader_base : Trader := {|
  place_order := fun _ _ _ _ _ w => (Raise NotImplementedError, w);
  get_open_positions := fun _ w => (Raise NotImplementedError, w);
  close_position := fun _ w => (Raise NotImplementedError, w)
|}.

Definition Strategy_base : Strategy :=
  {| generate_signal := fun _ _ w => (Ok (ODict {[ "signal" := VInt 0 ]}), w) |}.

(** The [ObotCore] object. *)
Record ObotCore := {
  data_provider : DataProvider;
  trader : Trader;
  strategy : Strategy;
  active_positions : gmap string Z
}.

(** The clock and [time.sleep]. *)
Record Env := {
  utcnow_time : W -> time;
  sleep : Z -> W -> W
}.

Record state := State {
  self : ObotCore;
  world : W;
  trace : list event
}.

(** Computations: state passing, with an exception or a value. The state
    reached when an exception is raised is kept. *)
Definition M (A : Type) : Type := state -> outcome A * state.

#[export] Instance M_ret : MRet M := fun A a st => (Ok a, st).
#[export] Instance M_bind : MBind M := fun A B f m st =>
  match m st with
  | (Ok a, st') => f a st'
  | (Raise e, st') => (Raise e, st')
  end.

Definition lift {A} (r : outcome A) : M A := fun st => (r, st).

Definition get_self : M ObotCore := fun st => (Ok (self st), st).

Definition emit (ev : event) : M unit := fun st =>
  (Ok tt, {| self := self st; world := world st; trace := trace st ++ [ev] |}).

(** A call into the world. *)
Definition call {A} (f : W -> outcome A * W) : M A := fun st =>
  let '(r, w) := f (world st) in
  (r, {| self := self st; world := w; trace := trace st |}).

(** [try: body  except Exception as e: handler(e)] *)
Definition try_except_Exception {A} (body : M A) (handler : exn -> M A) : M A :=
  fun st =>
    match body st with
    | (Raise e, st') =>
        if is_Exception e then handler e st' else (Raise e, st')
    | r => r
    end.

(** [for x in l: body(x)] *)
Fixpoint for_each {A} (l : list A) (body : A -> M unit) : M unit :=
  match l with
  | [] => mret tt
  | x :: l' => body x ;; for_each l' body
  end.

Definition logging_info (msg : string) : M unit := emit (Elog INFO msg).
Definition logging_error (msg : string) : M unit := emit (Elog ERROR msg).

Variable env : Env.
Variable g : globals.

Definition time_sleep (secs : Z) : M unit :=
  emit (Esleep secs) ;; call (fun w => (Ok tt, sleep env secs w)).

Definition call_fetch_candles (pair timeframe : string) (count : Z) : M DataFrame :=
  me ← get_self;
  emit (Efetch_candles pair timeframe count) ;;
  call (fetch_candles (data_provider me) pair timeframe count).

Definition call_generate_signal (pair : string) (data : DataFrame) : M pyobj :=
  me ← get_self;
  emit (Egenerate_signal pair) ;;
  call (generate_signal (strategy me) pair data).

(** [ObotCore.__init__] *)
Definition init (data_provider : DataProvider) (trader : Trader) (strategy : Strategy)
  : ObotCore := {|
  data_provider := data_provider;
  trader := trader;
  strategy := strategy;
  active_positions := foldl (fun d pair => <[pair := 0]> d) ∅ (PAIRS g)
|}.

(** [ObotCore.is_trading_session] *)
Definition is_trading_session : M bool :=
  now ← call (fun w => (Ok (utcnow_time env w), w));
  mret (time_le (TRADING_SESSION_START g) now && time_le now (TRADING_SESSION_END g)).

(** One turn of the loop in [run_cycle], for [pair]. *)
Definition poll_pair (pair : string) : M unit :=
  me ← get_self;
  count ← lift (match active_positions me !! pair with
                | Some n => Ok n
                | None => Raise (KeyError pair)
                end);
  if MAX_CONCURRENT_TRADES_PER_PAIR g <=? count then mret tt
  else
    try_except_Exception
      (data ← call_fetch_candles pair "H1" 100;
       signal ← call_generate_signal pair data;
       v ← lift (py_get signal "signal" (VInt 0));
       if py_ne_0 v then
         x ← lift (py_getitem signal "signal");
         up ← lift (py_gt_0 x);
         let direction := if up : bool then "BUY" else "SELL" in
         logging_info (pair ++ " | SIGNAL: " ++ direction)
       else mret tt)
      (fun e => logging_error ("Error processing " ++ pair ++ ": " ++ exn_str e)).

(** [ObotCore.run_cycle] *)
Definition run_cycle : M unit :=
  in_session ← is_trading_session;
  if negb in_session then
    logging_info "Outside trading session – sleeping" ;;
    time_sleep 300
  else
    for_each (PAIRS g) poll_pair ;;
    time_sleep 60.

(** [ObotCore.run]: the loop never ends by itself; [cycles] bounds how far
    it is followed. *)
Fixpoint run_loop (cycles : nat) : M unit :=
  match cycles with
  | O => mret tt
  | S n => run_cycle ;; run_loop n
  end.

Definition run (cycles : nat) : M unit :=
  logging_info "Obot Core Framework Started – Broker-Agnostic Mode" ;;
  run_loop cycles.

(** ** Vocabulary for the properties *)

Definition session_open (st : state) : bool :=
  let now := utcnow_time env (world st) in
  time_le (TRADING_SESSION_START g) now && time_le now (TRADING_SESSION_END g).

(** Outside the window: one informational record, then the idle sleep. *)
Definition idle (st : state) : state :=
  {| self := self st;
     world := sleep env 300 (world st);
     trace := trace st ++ [Elog INFO "Outside trading session – sleeping"; Esleep 300] |}.

(** Inside the window: the loop over the pairs, then the poll sleep. *)
Definition polling : M unit :=
  for_each (PAIRS g) poll_pair ;; time_sleep 60.

(** The state after [pair]'s turn, whatever its outcome. *)
Definition turn (st : state) (pair : string) : state := snd (poll_pair pair st).

(** The events a turn for [pair] can add. *)
Definition turn_event (pair : string) (ev : event) : Prop :=
  match ev with
  | Efetch_candles p tf n => p = pair /\ tf = "H1" /\ n = 100
  | Egenerate_signal p => p = pair
  | Elog _ _ => True
  | Etrader _ | Esleep _ => False
  end.

Definition at_cap (st : state) (pair : string) : Prop :=
  exists count, active_positions (self st) !! pair = Some count
                /\ MAX_CONCURRENT_TRADES_PER_PAIR g <= count.

Definition under_cap (st : state) (pair : string) : Prop :=
  exists count, active_positions (self st) !! pair = Some count
                /\ count < MAX_CONCURRENT_TRADES_PER_PAIR g.

(** The collaborators of [me] raise errors only, that is, instances of
    [Exception]; the interpreter's own control-flow exceptions
    ([KeyboardInterrupt], [SystemExit]) are not errors. *)
Definition raises_errors_only (me : ObotCore) : Prop :=
  (forall pair tf n w e w',
      fetch_candles (data_provider me) pair tf n w = (Raise e, w') ->
      is_Exception e = true) /\
  (forall pair data w e w',
      generate_signal (strategy me) pair data w = (Raise e, w') ->
      is_Exception e = true).

Definition table_covers (me : ObotCore) (pairs : list string) : Prop :=
  forall pair, pair ∈ pairs -> is_Some (active_positions me !! pair).

Definition no_io_for (pair : string) (ev : event) : Prop :=
  match ev with
  | Efetch_candles p _ _ => p <> pair
  | Egenerate_signal p => p <> pair
  | _ => True
  end.

Definition not_trader (ev : event) : Prop :=
  match ev with
  | Etrader _ => False
  | _ => True
  end.

(** The states the running object goes through: it starts from [__init__]
    in some world, and moves by turns of the loop and by whole cycles. *)
Inductive reachable (dp : DataProvider) (tr : Trader) (str : Strategy) : state -> Prop :=
| reach_init w :
    reachable dp tr str {| self := init dp tr str; world := w; trace := [] |}
| reach_turn st pair :
    reachable dp tr str st -> reachable dp tr str (turn st pair)
| reach_cycle st :
    reachable dp tr str st -> reachable dp tr str (snd (run_cycle st)).

(** Admission as a test: [pair] has an entry in the table, below the cap. *)
Definition below_cap (me : ObotCore) (pair : string) : bool :=
  match active_positions me !! pair with
  | Some count => count <? MAX_CONCURRENT_TRADES_PER_PAIR g
  | None => false
  end.

(** The pairs whose candles were asked for, and the sleeps, in the order
    of the trace. *)
Definition fetched_pairs (tr : list event) : list string :=
  omap (fun ev => match ev with Efetch_candles p _ _ => Some p | _ => None end) tr.

Definition signalled_pairs (tr : list event) : list string :=
  omap (fun ev => match ev with Egenerate_signal p => Some p | _ => None end) tr.

Definition sleeps (tr : list event) : list Z :=
  omap (fun ev => match ev with Esleep secs => Some secs | _ => None end) tr.

Definition log_records (tr : list event) : list (log_level * string) :=
  omap (fun ev => match ev with Elog l msg => Some (l, msg) | _ => None end) tr.

(** The state [run] enters its loop in. *)
Definition started (st : state) : state :=
  {| self := self st;
     world := world st;
     trace := trace st ++ [Elog INFO "Obot Core Framework Started – Broker-Agnostic Mode"] |}.

(** The same state, the object holding another trader. *)
Definition with_trader (tr : Trader) (st : state) : state :=
  {| self := {| data_provider := data_provider (self st);
                trader := tr;
                strategy := strategy (self st);
                active_positions := active_positions (self st) |};
     world := world st;
     trace := trace st |}.

(** All the ways a turn for [pair] can go: its outcome and the events it
    adds. *)
Inductive turn_shape (pair : string) : outcome unit -> list event -> Prop :=
| shape_no_entry :
    turn_shape pair (Raise (KeyError pair)) []
| shape_skipped :
    turn_shape pair (Ok tt) []
| shape_quiet :
    turn_shape pair (Ok tt) [Efetch_candles pair "H1" 100; Egenerate_signal pair]
| shape_signal (up : bool) :
    turn_shape pair (Ok tt)
      [Efetch_candles pair "H1" 100; Egenerate_signal pair;
       Elog INFO (pair ++ " | SIGNAL: " ++ (if up then "BUY" else "SELL"))]
| shape_fetch_error e :
    is_Exception e = true ->
    turn_shape pair (Ok tt)
      [Efetch_candles pair "H1" 100;
       Elog ERROR ("Error processing " ++ pair ++ ": " ++ exn_str e)]
| shape_decision_error e :
    is_Exception e = true ->
    turn_shape pair (Ok tt)
      [Efetch_candles pair "H1" 100; Egenerate_signal pair;
       Elog ERROR ("Error processing " ++ pair ++ ": " ++ exn_str e)]
| shape_fetch_interrupted e :
    is_Exception e = false ->
    turn_shape pair (Raise e) [Efetch_candles pair "H1" 100]
| shape_signal_interrupted e :
    is_Exception e = false ->
    turn_shape pair (Raise e) [Efetch_candles pair "H1" 100; Egenerate_signal pair].

End Core.

(** * A concrete deployment

    The world is the clock reading and the list of pairs the broker was
    asked for; the data provider fails for "B". [bot] runs on three
    instruments, [bot7] on the pairs of the module. *)

Module Deployment.

Definition broker_world : Type := time * list string.

Definition env : @Env broker_world :=
  {| utcnow_time := fst; sleep := fun _ w => w |}.

Definition DataUnavailable : exn := Exn "DataUnavailable" true "broker down".

Definition flaky_provider : @DataProvider broker_world unit :=
  {| fetch_candles := fun pair _ _ w =>
       (if String.eqb pair "B" then Raise DataUnavailable else Ok tt,
        (fst w, snd w ++ [pair])%list) |}.

Definition globals3 : globals := {|
  PAIRS := ["A"; "B"; "C"];
  TRADING_SESSION_START := Time 8 0 0 0;
  TRADING_SESSION_END := Time 12 0 0 0;
  RISK_PERCENT_PER_TRADE := S754_finite false 5764607523034235 (-59);
  MAX_CONCURRENT_TRADES_PER_PAIR := 1
|}.

Definition bot : @ObotCore broker_world unit :=
  init globals3 flaky_provider Trader_base Strategy_base.

(** The same object after some outside code has recorded an open trade
    on "B". *)
Definition bot_B_open : @ObotCore broker_world unit :=
  {| data_provider := flaky_provider;
     trader := Trader_base;
     strategy := Strategy_base;
     active_positions := <["B" := 1]> (active_positions bot) |}.

(** A strategy whose decisions carry no "signal" entry. *)
Definition quiet_strategy : @Strategy broker_world unit :=
  {| generate_signal := fun _ _ w => (Ok (ODict {[ "confidence" := VInt 1 ]}), w) |}.

Definition bot_quiet : @ObotCore broker_world unit :=
  init globals3 flaky_provider Trader_base quiet_strategy.

Definition bot7 : @ObotCore broker_world unit :=
  init module_globals flaky_provider Trader_base Strategy_base.

Definition at_time (me : @ObotCore broker_world unit) (now : time)
  : @state broker_world unit :=
  {| self := me; world := (now, []); trace := [] |}.

(** A provider that always answers, and one that is interrupted from the
    keyboard while it waits for "B". *)
Definition steady_provider : @DataProvider broker_world unit :=
  {| fetch_candles := fun pair _ _ w => (Ok tt, (fst w, snd w ++ [pair])%list) |}.

Definition KeyboardInterrupt : exn := Exn "KeyboardInterrupt" false "".

Definition interrupted_provider : @DataProvider broker_world unit :=
  {| fetch_candles := fun pair _ _ w =>
       (if String.eqb pair "B" then Raise KeyboardInterrupt else Ok tt,
        (fst w, snd w ++ [pair])%list) |}.

(** A strategy that is long on "A" and short on everything else, one whose
    signal value is a NaN, one that returns [None], and one whose "signal"
    entry is [None]. *)
Definition keen_strategy : @Strategy broker_world unit :=
  {| generate_signal := fun pair _ w =>
       (Ok (ODict {[ "signal" := VInt (if String.eqb pair "A" then 1 else -1) ]}), w) |}.

Definition nan_strategy : @Strategy broker_world unit :=
  {| generate_signal := fun _ _ w => (Ok (ODict {[ "signal" := VFloat S754_nan ]}), w) |}.

Definition forgetful_strategy : @Strategy broker_world unit :=
  {| generate_signal := fun _ _ w => (Ok (OVal VNone), w) |}.

Definition undecided_strategy : @Strategy broker_world unit :=
  {| generate_signal := fun _ _ w => (Ok (ODict {[ "signal" := VNone ]}), w) |}.

Definition bot_keen : @ObotCore broker_world unit :=
  init globals3 steady_provider Trader_base keen_strategy.

Definition bot_nan : @ObotCore broker_world unit :=
  init globals3 steady_provider Trader_base nan_strategy.

Definition bot_forgetful : @ObotCore broker_world unit :=
  init globals3 steady_provider Trader_base forgetful_strategy.

Definition bot_undecided : @ObotCore broker_world unit :=
  init globals3 steady_provider Trader_base undecided_strategy.

Definition bot_interrupted : @ObotCore broker_world unit :=
  init globals3 interrupted_provider Trader_base Strategy_base.

(** The object built from the base classes of the module, and the same
    with a provider that answers. *)
Definition bot_base : @ObotCore broker_world unit :=
  init globals3 DataProvider_base Trader_base Strategy_base.

Definition bot_steady : @ObotCore broker_world unit :=
  init globals3 steady_provider Trader_base Strategy_base.

(** The object built while "B" was not yet configured. *)
Definition globals2 : globals := {|
  PAIRS := ["A"; "C"];
  TRADING_SESSION_START := Time 8 0 0 0;
  TRADING_SESSION_END := Time 12 0 0 0;
  RISK_PERCENT_PER_TRADE := S754_finite false 5764607523034235 (-59);
  MAX_CONCURRENT_TRADES_PER_PAIR := 1
|}.

Definition bot_without_B : @ObotCore broker_world unit :=
  init globals2 steady_provider Trader_base Strategy_base.

(** A window meant to run over midnight, and a cap of zero. *)
Definition globals_night : globals := {|
  PAIRS := ["A"; "B"; "C"];
  TRADING_SESSION_START := Time 22 0 0 0;
  TRADING_SESSION_END := Time 2 0 0 0;
  RISK_PERCENT_PER_TRADE := S754_finite false 5764607523034235 (-59);
  MAX_CONCURRENT_TRADES_PER_PAIR := 1
|}.

Definition globals_cap0 : globals := {|
  PAIRS := ["A"; "B"; "C"];
  TRADING_SESSION_START := Time 8 0 0 0;
  TRADING_SESSION_END := Time 12 0 0 0;
  RISK_PERCENT_PER_TRADE := S754_finite false 5764607523034235 (-59);
  MAX_CONCURRENT_TRADES_PER_PAIR := 0
|}.

Definition bot_cap0 : @ObotCore broker_world unit :=
  init globals_cap0 steady_provider Trader_base Strategy_base.

(** Sample floats. *)
Definition f_0_01 : PyFloat.float := S754_finite false 5764607523034235 (-59).
Definition f_1 : PyFloat.float := PyFloat.of_int 1.
Definition f_4 : PyFloat.float := PyFloat.of_int 4.
Definition f_8 : PyFloat.float := PyFloat.of_int 8.
Definition f_20 : PyFloat.float := PyFloat.of_int 20.
Definition f_1000 : PyFloat.float := PyFloat.of_int 1000.
Definition f_neg_1000 : PyFloat.float := PyFloat.of_int (-1000).
Definition f_zero : PyFloat.float := S754_zero false.
Definition f_0_004 : PyFloat.float := S754_finite false 4611686018427388 (-60).
Definition f_0_008 : PyFloat.float := S754_finite false 4611686018427388 (-59).
Definition f_0_05 : PyFloat.float := S754_finite false 7205759403792794 (-57).
Definition f_neg_0_05 : PyFloat.float := S754_finite true 7205759403792794 (-57).
Definition f_1e308 : PyFloat.float := S754_finite false 5010420900022432 971.
Definition f_inf : PyFloat.float := S754_infinity false.

End Deployment.

(** * Properties of float arithmetic *)

Import PyFloat RiskManager.

(** ** Digits and shifts *)

Lemma digits2_pos_size p : digits2_pos p = Pos.size p.
Proof. induction p; simpl; congruence. Qed.

Lemma Zdigits2_bounds m :
  0 < m -> 2 ^ (Zdigits2 m - 1) <= m < 2 ^ Zdigits2 m.
Proof.
  destruct m as [|p|p]; try lia. intros _.
  change (Zdigits2 (Z.pos p)) with (Z.pos (digits2_pos p)).
  rewrite digits2_pos_size.
  pose proof (Pos.size_gt p) as Hgt. pose proof (Pos.size_le p) as Hle.
  apply Pos2Z.pos_lt_pos in Hgt. apply Pos2Z.pos_le_pos in Hle.
  rewrite Pos2Z.inj_pow in Hgt, Hle.
  split; [|exact Hgt].
  replace (Z.pos (Pos.size p)) with (Z.succ (Z.pos (Pos.size p) - 1)) in Hle by lia.
  rewrite Z.pow_succ_r in Hle by lia. change (Z.pos p~0) with (2 * Z.pos p) in Hle. lia.
Qed.

Lemma Zdigits2_pos m : 0 < m -> 0 < Zdigits2 m.
Proof. destruct m; simpl; lia. Qed.

Lemma Zdigits2_le_of_lt m n : 0 < m -> m < 2 ^ n -> Zdigits2 m <= n.
Proof.
  intros Hm Hlt. destruct (Zdigits2_bounds m Hm) as [Hlo _].
  destruct (Z_le_gt_dec (Zdigits2 m) n) as [|Hgt]; [assumption|exfalso].
  assert (0 <= n).
  { destruct (Z_lt_le_dec n 0) as [Hn|]; [|assumption].
    rewrite Z.pow_neg_r in Hlt by assumption. lia. }
  assert (2 ^ n <= 2 ^ (Zdigits2 m - 1)) by (apply Z.pow_le_mono_r; lia).
  lia.
Qed.

(** [shr_1] halves a non-negative mantissa. *)
Lemma shr_1_m mrs : 0 <= shr_m mrs -> shr_m (shr_1 mrs) = shr_m mrs / 2.
Proof.
  destruct mrs as [m r s]. cbn [shr_m shr_1]. intros Hm.
  destruct m as [|[p|p|]|p]; cbn [shr_m]; try lia; try reflexivity.
  - rewrite Pos2Z.inj_xI. apply Z.div_unique with 1; lia.
  - rewrite Pos2Z.inj_xO. apply Z.div_unique with 0; lia.
Qed.

Lemma shr_iter_m p : forall mrs,
  0 <= shr_m mrs ->
  shr_m (SpecFloat.iter_pos shr_1 p mrs) = shr_m mrs / 2 ^ Z.pos p.
Proof.
  induction p as [p IH|p IH|]; intros mrs Hm; cbn [SpecFloat.iter_pos].
  - assert (H1 : 0 <= shr_m (shr_1 mrs)) by (rewrite shr_1_m by assumption; apply Z.div_pos; lia).
    assert (H2 : 0 <= shr_m (SpecFloat.iter_pos shr_1 p (shr_1 mrs)))
      by (rewrite IH by assumption; apply Z.div_pos; lia).
    rewrite IH, IH, shr_1_m by assumption.
    rewrite !Z.div_div by lia. f_equal.
    replace (Z.pos p~1) with (1 + Z.pos p + Z.pos p) by lia.
    rewrite !Z.pow_add_r by lia. lia.
  - assert (H2 : 0 <= shr_m (SpecFloat.iter_pos shr_1 p mrs))
      by (rewrite IH by assumption; apply Z.div_pos; lia).
    rewrite IH, IH by assumption.
    rewrite !Z.div_div by lia. f_equal.
    replace (Z.pos p~0) with (Z.pos p + Z.pos p) by lia.
    rewrite Z.pow_add_r by lia. reflexivity.
  - rewrite shr_1_m by assumption. reflexivity.
Qed.

(** The two results of a shift: mantissa and exponent. *)
Lemma shr_spec mrs e n :
  0 <= shr_m mrs ->
  shr_m (fst (shr mrs e n)) = shr_m mrs / 2 ^ Z.max n 0
  /\ snd (shr mrs e n) = e + Z.max n 0.
Proof.
  intros Hm. destruct n as [|p|p]; cbn [shr fst snd].
  - rewrite Z.max_id. rewrite Z.pow_0_r, Z.div_1_r. lia.
  - rewrite shr_iter_m by assumption. rewrite Z.max_l by lia. lia.
  - rewrite Z.max_r by lia. rewrite Z.pow_0_r, Z.div_1_r. lia.
Qed.

Lemma shr_record_of_loc_m m l : shr_m (shr_record_of_loc m l) = m.
Proof. destruct l as [|[]]; reflexivity. Qed.

Lemma round_nearest_even_bounds m l :
  m <= round_nearest_even m l <= m + 1.
Proof.
  destruct l as [|[]]; cbn [round_nearest_even]; try lia.
  destruct (Z.even m); lia.
Qed.

Lemma shr_fexp_spec m e l :
  0 <= m ->
  shr_m (fst (shr_fexp prec emax m e l)) = m / 2 ^ shift_of m e
  /\ snd (shr_fexp prec emax m e l) = e + shift_of m e.
Proof.
  intros Hm. unfold shr_fexp, shift_of.
  pose proof (shr_spec (shr_record_of_loc m l) e
                (fexp prec emax (Zdigits2 m + e) - e)) as H.
  rewrite shr_record_of_loc_m in H. apply H. assumption.
Qed.

Lemma shift_of_nonneg m e : 0 <= shift_of m e.
Proof. unfold shift_of. lia. Qed.

Lemma shift_of_cases m e :
  shift_of m e = 0
  \/ (0 < shift_of m e /\ shift_of m e = Zdigits2 m - 53)
  \/ (0 < shift_of m e /\ shift_of m e = -1074 - e).
Proof. unfold shift_of, fexp, emin, prec, emax. lia. Qed.

Lemma shift_of_exponent m e : -1074 <= e + shift_of m e.
Proof. unfold shift_of, fexp, emin, prec, emax. lia. Qed.

Lemma div_pow2_pos m p : 0 <= p -> 2 ^ p <= m -> 1 <= m / 2 ^ p.
Proof.
  intros Hp Hle. apply Z.div_le_lower_bound; [apply Z.pow_pos_nonneg; lia|lia].
Qed.

Lemma pow2_digits_le m p : 0 < m -> 0 <= p -> p < Zdigits2 m -> 2 ^ p <= m.
Proof.
  intros Hm Hp Hlt. destruct (Zdigits2_bounds m Hm) as [Hlo _].
  transitivity (2 ^ (Zdigits2 m - 1)); [|assumption].
  apply Z.pow_le_mono_r; lia.
Qed.

(** Rounding a non-negative mantissa gives a result of the given sign,
    never a NaN. *)
Lemma binary_round_aux_sign s m e l :
  0 <= m -> has_sign s (binary_round_aux prec emax s m e l).
Proof.
  intros Hm. unfold binary_round_aux.
  destruct (shr_fexp_spec m e l Hm) as [Hm1 _].
  destruct (shr_fexp prec emax m e l) as [mrs1 e1]. cbn [fst snd] in Hm1.
  set (m1 := round_nearest_even (shr_m mrs1) (loc_of_shr_record mrs1)).
  assert (H1 : 0 <= m1).
  { pose proof (round_nearest_even_bounds (shr_m mrs1) (loc_of_shr_record mrs1)).
    assert (0 <= shr_m mrs1)
      by (rewrite Hm1; apply Z.div_pos; [lia|apply Z.pow_pos_nonneg; [lia|apply shift_of_nonneg]]).
    unfold m1. lia. }
  destruct (shr_fexp_spec m1 e1 loc_Exact H1) as [Hm2 _].
  destruct (shr_fexp prec emax m1 e1 loc_Exact) as [mrs2 e2]. cbn [fst snd] in Hm2.
  assert (H2 : 0 <= shr_m mrs2)
    by (rewrite Hm2; apply Z.div_pos; [lia|apply Z.pow_pos_nonneg; [lia|apply shift_of_nonneg]]).
  destruct (shr_m mrs2) as [|m2|m2]; [reflexivity| |lia].
  destruct (e2 <=? emax - prec); reflexivity.
Qed.

(** Rounding a positive mantissa whose value is at least the smallest
    subnormal never gives zero. *)
Lemma binary_round_aux_nonzero s m e l :
  0 < m -> (e < -1074 -> 2 ^ (-1074 - e) <= m) ->
  nonzero_with_sign s (binary_round_aux prec emax s m e l).
Proof.
  intros Hm Hsmall. unfold binary_round_aux.
  destruct (shr_fexp_spec m e l) as [Hm1 He1]; [lia|].
  destruct (shr_fexp prec emax m e l) as [mrs1 e1]. cbn [fst snd] in Hm1, He1.
  assert (H1 : 1 <= shr_m mrs1).
  { rewrite Hm1. apply div_pow2_pos; [apply shift_of_nonneg|].
    destruct (shift_of_cases m e) as [Hq | [[Hp Hq] | [Hp Hq]]]; rewrite Hq in *.
    - simpl. lia.
    - apply pow2_digits_le; lia.
    - apply Hsmall. lia. }
  set (m1 := round_nearest_even (shr_m mrs1) (loc_of_shr_record mrs1)).
  assert (H1' : 1 <= m1).
  { pose proof (round_nearest_even_bounds (shr_m mrs1) (loc_of_shr_record mrs1)).
    unfold m1. lia. }
  destruct (shr_fexp_spec m1 e1 loc_Exact) as [Hm2 _]; [lia|].
  destruct (shr_fexp prec emax m1 e1 loc_Exact) as [mrs2 e2]. cbn [fst snd] in Hm2.
  assert (H2 : 1 <= shr_m mrs2).
  { rewrite Hm2. apply div_pow2_pos; [apply shift_of_nonneg|].
    pose proof (shift_of_exponent m e).
    destruct (shift_of_cases m1 e1) as [Hq | [[Hp Hq] | [Hp Hq]]].
    - rewrite Hq. simpl. lia.
    - rewrite Hq in *. apply pow2_digits_le; lia.
    - lia. }
  destruct (shr_m mrs2) as [|m2|m2]; [lia| |lia].
  destruct (e2 <=? emax - prec); reflexivity.
Qed.

(** ** What the shifted-out bits record *)

Lemma pow2_succ_divide M k :
  0 <= k -> M mod 2 ^ (k + 1) = 0 ->
  M mod 2 ^ k = 0 /\ (M / 2 ^ k) mod 2 = 0.
Proof.
  intros Hk H0. assert (Hp : 0 < 2 ^ k) by (apply Z.pow_pos_nonneg; lia).
  apply Z.mod_divide in H0; [|rewrite Z.pow_add_r by lia; lia].
  destruct H0 as [c Hc]. rewrite Z.pow_add_r, Z.pow_1_r in Hc by lia.
  subst M. split.
  - replace (c * (2 ^ k * 2)) with (c * 2 * 2 ^ k) by lia. apply Z.mod_mul. lia.
  - replace (c * (2 ^ k * 2)) with (c * 2 * 2 ^ k) by lia.
    rewrite Z.div_mul by lia. apply Z.mod_mul. lia.
Qed.

Lemma shr_1_shifted M k mrs :
  0 <= M -> 0 <= k -> shifted M k mrs -> shifted M (k + 1) (shr_1 mrs).
Proof.
  intros HM Hk [Hm Hfl].
  assert (Hp : 0 < 2 ^ k) by (apply Z.pow_pos_nonneg; lia).
  assert (Hm0 : 0 <= shr_m mrs) by (rewrite Hm; apply Z.div_pos; lia).
  split.
  - rewrite shr_1_m by assumption. rewrite Hm, Z.div_div by lia.
    now rewrite Z.pow_add_r, Z.pow_1_r by lia.
  - intros Hrs H0. destruct (pow2_succ_divide M k Hk H0) as [Hk0 Heven].
    rewrite <- Hm in Heven.
    destruct mrs as [m r s]. cbn [shr_m shr_r shr_s shr_1] in *.
    destruct m as [|[p|p|]|p]; cbn [shr_r shr_s] in Hrs;
      try (apply Hfl; [destruct r, s; simpl in *; congruence|assumption]);
      try lia.
    + rewrite Pos2Z.inj_xI in Heven.
      replace (2 * Z.pos p + 1) with (1 + Z.pos p * 2) in Heven by lia.
      rewrite Z.mod_add in Heven by lia. discriminate.
    + discriminate.
Qed.

Lemma shr_iter_shifted M p : forall k mrs,
  0 <= M -> 0 <= k -> shifted M k mrs ->
  shifted M (k + Z.pos p) (SpecFloat.iter_pos shr_1 p mrs).
Proof.
  induction p as [p IH|p IH|]; intros k mrs HM Hk H; cbn [SpecFloat.iter_pos].
  - replace (k + Z.pos p~1) with (k + 1 + Z.pos p + Z.pos p) by lia.
    apply IH; [assumption|lia|]. apply IH; [assumption|lia|].
    now apply shr_1_shifted.
  - replace (k + Z.pos p~0) with (k + Z.pos p + Z.pos p) by lia.
    apply IH; [assumption|lia|]. now apply IH.
  - now apply shr_1_shifted.
Qed.

Lemma shr_fexp_shifted m e :
  0 <= m -> shifted m (shift_of m e) (fst (shr_fexp prec emax m e loc_Exact)).
Proof.
  intros Hm. unfold shr_fexp, shift_of. cbn [shr_record_of_loc].
  assert (H0 : shifted m 0 (Build_shr_record m false false)).
  { split; cbn [shr_m shr_r shr_s]; [now rewrite Z.pow_0_r, Z.div_1_r|discriminate]. }
  destruct (fexp prec emax (Zdigits2 m + e) - e) as [|p|p]; cbn [shr fst].
  - exact H0.
  - rewrite Z.max_l by lia.
    apply (shr_iter_shifted m p 0 _ Hm (Z.le_refl 0) H0).
  - rewrite Z.max_r by lia. exact H0.
Qed.

Lemma round_up_inexact mrs :
  round_nearest_even (shr_m mrs) (loc_of_shr_record mrs) = shr_m mrs
  \/ (round_nearest_even (shr_m mrs) (loc_of_shr_record mrs) = shr_m mrs + 1
      /\ shr_r mrs || shr_s mrs = true).
Proof.
  destruct mrs as [m [] []]; cbn [loc_of_shr_record round_nearest_even shr_m shr_r shr_s orb];
    try (left; reflexivity); try (right; split; reflexivity).
  destruct (Z.even m); [left; reflexivity|right; split; reflexivity].
Qed.

(** A product or quotient that is at most a representable number rounds to
    at most that number: in particular it does not overflow. [mb * 2^eb] is
    the representable bound, [m * 2^e] the exact value to round. *)
Lemma binary_round_aux_below s m e mb eb :
  0 < m -> 0 < mb -> Zdigits2 mb <= 53 -> -1074 <= eb <= 971 ->
  e <= eb -> m <= mb * 2 ^ (eb - e) ->
  is_finite (binary_round_aux prec emax s m e loc_Exact) = true.
Proof.
  intros Hm Hmb Hdb Heb He Hle. unfold binary_round_aux.
  destruct (shr_fexp_spec m e loc_Exact) as [Hm1 He1]; [lia|].
  pose proof (shr_fexp_shifted m e) as [_ Hfl]; [lia|].
  destruct (shr_fexp prec emax m e loc_Exact) as [mrs1 e1].
  cbn [fst snd] in Hm1, He1, Hfl.
  set (p1 := shift_of m e) in *.
  assert (Hp1 : 0 <= p1) by apply shift_of_nonneg.
  destruct (Zdigits2_bounds mb Hmb) as [_ Hmbhi].
  (* the exponent after the first shift is at most [eb] *)
  assert (Hd : Zdigits2 m <= Zdigits2 mb + (eb - e)).
  { apply Zdigits2_le_of_lt; [assumption|].
    rewrite Z.pow_add_r by (pose proof (Zdigits2_pos mb Hmb); lia).
    assert (0 < 2 ^ (eb - e)) by (apply Z.pow_pos_nonneg; lia). nia. }
  assert (He1b : e1 <= eb).
  { subst e1. destruct (shift_of_cases m e) as [Hq | [[Hp Hq] | [Hp Hq]]];
      fold p1 in Hq; lia. }
  (* the rounded mantissa is at most the bound at that exponent *)
  set (B := mb * 2 ^ (eb - e1)).
  assert (HB : m <= B * 2 ^ p1).
  { unfold B. rewrite <- Z.mul_assoc, <- Z.pow_add_r by lia.
    replace (eb - e1 + p1) with (eb - e) by lia. assumption. }
  assert (H2p : 0 < 2 ^ p1) by (apply Z.pow_pos_nonneg; lia).
  set (m1 := round_nearest_even (shr_m mrs1) (loc_of_shr_record mrs1)).
  assert (Hm1B : 0 <= m1 <= B).
  { assert (Hq : shr_m mrs1 <= B).
    { rewrite Hm1. apply Z.div_le_upper_bound; lia. }
    assert (Hq0 : 0 <= shr_m mrs1) by (rewrite Hm1; apply Z.div_pos; lia).
    destruct (round_up_inexact mrs1) as [Heq | [Heq Hrs]]; fold m1 in Heq;
      rewrite Heq; [lia|].
    specialize (Hfl Hrs).
    pose proof (Z.div_mod m (2 ^ p1)) as Hdm.
    pose proof (Z.mod_pos_bound m (2 ^ p1) H2p) as Hmod.
    rewrite <- Hm1 in Hdm. nia. }
  assert (HBhi : B < 2 ^ (Zdigits2 mb + (eb - e1))).
  { unfold B. rewrite Z.pow_add_r by (pose proof (Zdigits2_pos mb Hmb); lia).
    assert (0 < 2 ^ (eb - e1)) by (apply Z.pow_pos_nonneg; lia). nia. }
  destruct (shr_fexp_spec m1 e1 loc_Exact) as [Hm2 He2]; [lia|].
  destruct (shr_fexp prec emax m1 e1 loc_Exact) as [mrs2 e2].
  cbn [fst snd] in Hm2, He2.
  assert (H2 : 0 <= shr_m mrs2).
  { rewrite Hm2. apply Z.div_pos; [lia|].
    apply Z.pow_pos_nonneg; [lia|apply shift_of_nonneg]. }
  destruct (shr_m mrs2) as [|m2|m2] eqn:Em2; [reflexivity| |lia].
  assert (He2b : e2 <= 971).
  { subst e2. destruct (shift_of_cases m1 e1) as [Hq | [[Hp Hq] | [Hp Hq]]];
      rewrite Hq; [lia| |lia].
    assert (0 < m1).
    { destruct (Z.eq_dec m1 0) as [H0|]; [|lia].
      rewrite H0 in Hm2. rewrite Z.div_0_l in Hm2; [lia|].
      assert (0 < 2 ^ shift_of 0 e1)
        by (apply Z.pow_pos_nonneg; [lia|apply shift_of_nonneg]). lia. }
    assert (Zdigits2 m1 <= Zdigits2 mb + (eb - e1))
      by (apply Zdigits2_le_of_lt; lia).
    lia. }
  apply Z.leb_le in He2b. unfold emax, prec.
  change (1024 - 53) with 971. now rewrite He2b.
Qed.

(** ** Well-formed floats *)

Lemma wf_finite s m e :
  wf (S754_finite s m e) = true ->
  -1074 <= e <= 971 /\ Zdigits2 (Z.pos m) <= 53
  /\ (e = -1074 \/ Zdigits2 (Z.pos m) = 53).
Proof.
  unfold wf, valid_binary, bounded, canonical_mantissa.
  intros H. apply andb_true_iff in H as [Hc He].
  apply Z.eqb_eq in Hc. apply Z.leb_le in He.
  change (Z.pos (digits2_pos m)) with (Zdigits2 (Z.pos m)) in Hc.
  unfold fexp, emin, prec, emax in *. lia.
Qed.

Lemma of_int_10 : of_int 10 = ten.
Proof. reflexivity. Qed.

(** [x * 10] is zero only for a zero [x]: no float is small enough for
    the product to underflow. *)
Lemma fmul_ten_nonzero s m e :
  wf (S754_finite s m e) = true ->
  nonzero_with_sign s (fmul (S754_finite s m e) ten).
Proof.
  intros Hwf. apply wf_finite in Hwf as (He & _ & _).
  unfold fmul, ten. cbn [SFmul]. rewrite xorb_false_r.
  apply binary_round_aux_nonzero; [lia|].
  intros Hlt. rewrite Pos2Z.inj_mul.
  transitivity (2 ^ 49); [apply Z.pow_le_mono_r; lia|].
  change (2 ^ 49) with 562949953421312. lia.
Qed.

Lemma fmul_ten_is_zero x :
  wf x = true -> is_zero (fmul x ten) = is_zero x.
Proof.
  intros Hwf. destruct x as [s|s| |s m e]; [reflexivity ..|].
  pose proof (fmul_ten_nonzero s m e Hwf) as H.
  unfold nonzero_with_sign in H. cbn [is_zero].
  destruct (fmul (S754_finite s m e) ten); [tauto|reflexivity|tauto|reflexivity].
Qed.

Lemma compare_cont_le p q :
  PosDef.Pos.compare_cont Eq p q <> Gt -> Z.pos p <= Z.pos q.
Proof. intros H. apply Pos2Z.pos_le_pos. exact H. Qed.

(** A finite float times a float of magnitude at most 1 is finite. *)
Lemma fmul_le_one_finite sb mb eb sr mr er :
  wf (S754_finite sb mb eb) = true ->
  wf (S754_finite sr mr er) = true ->
  SFleb (S754_finite false mr er) one = true ->
  is_finite (fmul (S754_finite sb mb eb) (S754_finite sr mr er)) = true.
Proof.
  intros Hb Hr Hle.
  apply wf_finite in Hb as (Heb & Hdb & _).
  apply wf_finite in Hr as (Her & Hdr & _).
  assert (Hr1 : er <= 0 /\ Z.pos mr <= 2 ^ (- er)).
  { unfold SFleb, one in Hle. cbn [SFcompare] in Hle.
    destruct (Zdigits2_bounds (Z.pos mr)) as [_ Hhi]; [lia|].
    assert (Hmr : Z.pos mr < 2 ^ 53).
    { eapply Z.lt_le_trans; [exact Hhi|]. apply Z.pow_le_mono_r; lia. }
    destruct (er ?= -52) eqn:Hc.
    - apply Z.compare_eq in Hc. subst er. split; [clear; lia|].
      apply (compare_cont_le mr 4503599627370496).
      destruct (PosDef.Pos.compare_cont Eq mr 4503599627370496);
        [discriminate|discriminate|discriminate Hle].
    - rewrite Z.compare_lt_iff in Hc. clear Hle. split; [lia|].
      transitivity (2 ^ 53); [lia|]. apply Z.pow_le_mono_r; lia.
    - discriminate. }
  destruct Hr1 as [Her0 Hmr]. clear Hle.
  unfold fmul. cbn [SFmul].
  apply (binary_round_aux_below _ _ _ (Z.pos mb) eb);
    [lia|lia|assumption|lia|lia|].
  rewrite Pos2Z.inj_mul. replace (eb - (eb + er)) with (- er) by lia.
  apply Z.mul_le_mono_nonneg_l; [lia|assumption].
Qed.

(** ** Signs of quotients and of rounded values *)

Lemma SFdiv_core_binary_nonneg mx ex my ey :
  0 <= fst (fst (SFdiv_core_binary prec emax (Z.pos mx) ex (Z.pos my) ey)).
Proof.
  unfold SFdiv_core_binary.
  set (e' := Z.min _ _). set (s := ex - ey - e').
  set (m' := match s with Z.pos _ => Z.shiftl (Z.pos mx) s | 0 => Z.pos mx | Z.neg _ => 0 end).
  assert (Hm' : 0 <= m').
  { unfold m'. destruct s; [lia| |lia]. apply Z.shiftl_nonneg. lia. }
  assert (Hq : fst (Z.div_eucl m' (Z.pos my)) = m' / Z.pos my) by reflexivity.
  destruct (Z.div_eucl m' (Z.pos my)) as [q r]. cbn [fst] in *.
  rewrite Hq. apply Z.div_pos; lia.
Qed.

Lemma fdiv_finite_sign sx mx ex sy my ey :
  has_sign (xorb sx sy) (fdiv (S754_finite sx mx ex) (S754_finite sy my ey)).
Proof.
  unfold fdiv. cbn [SFdiv].
  pose proof (SFdiv_core_binary_nonneg mx ex my ey) as Hq.
  destruct (SFdiv_core_binary prec emax (Z.pos mx) ex (Z.pos my) ey) as [[mz ez] lz].
  apply binary_round_aux_sign. exact Hq.
Qed.

(** A non-negative finite dividend over a positive divisor. *)
Lemma fdiv_nonneg x y :
  has_sign false x -> is_finite x = true -> nonzero_with_sign false y ->
  has_sign false (fdiv x y).
Proof.
  intros Hx Hfx Hy.
  destruct x as [sx|sx| |sx mx ex]; try discriminate;
    destruct y as [sy|sy| |sy my ey]; cbn [has_sign nonzero_with_sign] in *;
    try contradiction; subst; try reflexivity.
  apply (fdiv_finite_sign false mx ex false my ey).
Qed.

Lemma round2_sign s x : has_sign s x -> has_sign s (round2 x).
Proof.
  destruct x as [sx|sx| |sx m e]; cbn [round2 has_sign]; try tauto.
  intros ->. destruct (hundredths m e) as [|n|n]; [reflexivity| |reflexivity].
  pose proof (fdiv_finite_sign s n 0 false 100 0) as H.
  now rewrite xorb_false_r in H.
Qed.

Lemma has_sign_ge0 x : has_sign false x -> ge0 x = true.
Proof. destruct x as [s|s| |s m e]; cbn [has_sign]; intros H; subst; (reflexivity || contradiction). Qed.

Lemma SFeqb_refl s x : has_sign s x -> SFeqb x x = true.
Proof.
  destruct x as [sx|sx| |sx m e]; cbn [has_sign]; intros H; try contradiction.
  - reflexivity.
  - unfold SFeqb. cbn [SFcompare]. now destruct sx.
  - unfold SFeqb. cbn [SFcompare]. rewrite Z.compare_refl.
    change (PosDef.Pos.compare_cont Eq m m) with (Pos.compare m m).
    rewrite Pos.compare_refl. now destruct sx.
Qed.

(** ** The sizer on valid inputs *)

Lemma gt0_inv x :
  gt0 x = true ->
  (exists m e, x = S754_finite false m e) \/ x = S754_infinity false.
Proof.
  destruct x as [s|s| |s m e]; unfold gt0, SFltb; cbn [SFcompare];
    try discriminate; destruct s; try discriminate; intros _;
    [now right|left; now exists m, e].
Qed.

Lemma valid_inputs_inv b r d :
  valid_inputs b r d = true ->
  wf b = true /\ wf d = true /\ gt0 b = true /\ gt0 d = true
  /\ exists mr er, r = S754_finite false mr er
                   /\ wf r = true /\ SFleb r one = true.
Proof.
  unfold valid_inputs. rewrite !andb_true_iff.
  intros [[[[[[Hwb Hwr] Hwd] Hb] Hr] Hr1] Hd].
  repeat (split; [assumption|]).
  destruct (gt0_inv r Hr) as [(mr & er & ->) | ->]; [|discriminate Hr1].
  now exists mr, er.
Qed.

Lemma lot_size_raises_iff b r d :
  wf d = true ->
  lot_size b r d
  = if is_zero d then Raise ZeroDivisionError
    else Ok (fdiv (fmul b r) (fmul d ten)).
Proof.
  intros Hd. unfold lot_size, truediv. rewrite of_int_10.
  now rewrite (fmul_ten_is_zero d Hd).
Qed.

Lemma fmul_ten_positive d :
  wf d = true -> gt0 d = true -> nonzero_with_sign false (fmul d ten).
Proof.
  intros Hwd Hd. destruct (gt0_inv d Hd) as [(md & ed & ->) | ->].
  - now apply fmul_ten_nonzero.
  - reflexivity.
Qed.

Lemma valid_lot_size b r d :
  valid_inputs b r d = true ->
  lot_size b r d = Ok (fdiv (fmul b r) (fmul d ten)).
Proof.
  intros Hv.
  destruct (valid_inputs_inv b r d Hv) as (_ & Hwd & _ & Hd & _).
  rewrite lot_size_raises_iff by assumption.
  destruct (gt0_inv d Hd) as [(md & ed & ->) | ->]; reflexivity.
Qed.

(** The quotient is not negative, and is a number, unless an infinite
    balance meets a stop distance whose tenfold overflows. *)
Lemma valid_lot_size_nonneg b r d :
  valid_inputs b r d = true ->
  is_finite b = true \/ is_finite (fmul d ten) = true ->
  has_sign false (fdiv (fmul b r) (fmul d ten)).
Proof.
  intros Hv Hfin.
  destruct (valid_inputs_inv b r d Hv)
    as (Hwb & Hwd & Hb & Hd & mr & er & -> & Hwr & Hr1).
  pose proof (fmul_ten_positive d Hwd Hd) as Hy.
  destruct (gt0_inv b Hb) as [(mb & eb & ->) | ->].
  - apply fdiv_nonneg; [|now apply fmul_le_one_finite|assumption].
    unfold fmul. cbn [SFmul]. apply binary_round_aux_sign. lia.
  - destruct Hfin as [Hfin|Hfin]; [discriminate Hfin|].
    change (fmul (S754_infinity false) (S754_finite false mr er))
      with (S754_infinity false).
    destruct (fmul d ten) as [s|s| |s my ey]; try discriminate Hfin;
      cbn [nonzero_with_sign] in Hy; [contradiction|subst s; reflexivity].
Qed.

Lemma valid_lot_size_nan b r d :
  valid_inputs b r d = true ->
  is_finite b = false -> is_finite (fmul d ten) = false ->
  fdiv (fmul b r) (fmul d ten) = S754_nan.
Proof.
  intros Hv Hb' Hy'.
  destruct (valid_inputs_inv b r d Hv)
    as (Hwb & Hwd & Hb & Hd & mr & er & -> & Hwr & Hr1).
  pose proof (fmul_ten_positive d Hwd Hd) as Hy.
  destruct (gt0_inv b Hb) as [(mb & eb & ->) | ->]; [discriminate Hb'|].
  change (fmul (S754_infinity false) (S754_finite false mr er))
    with (S754_infinity false).
  destruct (fmul d ten) as [s|s| |s my ey]; try discriminate Hy';
    cbn [nonzero_with_sign] in Hy; [reflexivity|contradiction].
Qed.

(** ** Raising the exponent by one *)

Lemma Zdigits2_unique m k : 2 ^ (k - 1) <= m < 2 ^ k -> 0 < k -> Zdigits2 m = k.
Proof.
  intros [Hlo Hhi] Hk.
  assert (Hm : 0 < m).
  { eapply Z.lt_le_trans; [|exact Hlo]. apply Z.pow_pos_nonneg; lia. }
  destruct (Zdigits2_bounds m Hm) as [Hlo' Hhi'].
  pose proof (Zdigits2_pos m Hm) as Hd.
  destruct (Z.lt_trichotomy (Zdigits2 m) k) as [Hlt | [Heq | Hgt]]; [exfalso|assumption|exfalso].
  - assert (2 ^ Zdigits2 m <= 2 ^ (k - 1)) by (apply Z.pow_le_mono_r; lia). lia.
  - assert (2 ^ k <= 2 ^ (Zdigits2 m - 1)) by (apply Z.pow_le_mono_r; lia). lia.
Qed.

Lemma Zdigits2_nonneg m : 0 <= Zdigits2 m.
Proof. destruct m; simpl; lia. Qed.

(** Shifting with the exponent raised by one: the same mantissa and the
    exponent raised by one, as long as the two shift amounts agree or neither
    shifts. *)
Lemma shr_succ mrs e n n' :
  n' = n \/ (n <= 0 /\ n' <= 0) ->
  shr mrs (e + 1) n' = (fst (shr mrs e n), snd (shr mrs e n) + 1).
Proof.
  intros [-> | [Hn Hn']].
  - destruct n; cbn [shr fst snd]; f_equal; lia.
  - destruct n, n'; cbn [shr fst snd]; try lia; reflexivity.
Qed.

Lemma shr_fexp_succ m e l :
  -1074 <= Zdigits2 m + e - 53 \/ -1074 <= e ->
  shr_fexp prec emax m (e + 1) l
  = (fst (shr_fexp prec emax m e l), snd (shr_fexp prec emax m e l) + 1).
Proof.
  intros H. unfold shr_fexp. apply shr_succ.
  unfold fexp, emin, prec, emax. lia.
Qed.

(** What is left of a value below the normal range: nothing above the
    smallest exponent. *)
Lemma binary_round_aux_subnormal s m e l s' m' e' :
  0 <= m -> Zdigits2 m + e - 53 < -1074 -> e < -1074 ->
  binary_round_aux prec emax s m e l = S754_finite s' m' e' -> e' = -1074.
Proof.
  intros Hm Hd He. unfold binary_round_aux.
  destruct (shr_fexp_spec m e l Hm) as [Hm1 He1].
  destruct (shr_fexp prec emax m e l) as [mrs1 e1]. cbn [fst snd] in Hm1, He1.
  assert (Hp : shift_of m e = -1074 - e)
    by (unfold shift_of, fexp, emin, prec, emax; lia).
  rewrite Hp in *. assert (He1' : e1 = -1074) by lia. clear He1.
  set (m1 := round_nearest_even (shr_m mrs1) (loc_of_shr_record mrs1)).
  assert (Hm1b : 0 <= m1 <= 2 ^ 52).
  { pose proof (round_nearest_even_bounds (shr_m mrs1) (loc_of_shr_record mrs1)) as Hb.
    fold m1 in Hb.
    assert (H2p : 0 < 2 ^ (-1074 - e)) by (apply Z.pow_pos_nonneg; lia).
    assert (0 <= shr_m mrs1 < 2 ^ 52); [|lia].
    rewrite Hm1. split; [apply Z.div_pos; lia|].
    apply Z.div_lt_upper_bound; [lia|].
    rewrite <- Z.pow_add_r by lia.
    destruct (Z.eq_dec m 0) as [->|Hne]; [apply Z.pow_pos_nonneg; lia|].
    destruct (Zdigits2_bounds m) as [_ Hhi]; [lia|].
    eapply Z.lt_le_trans; [exact Hhi|]. apply Z.pow_le_mono_r; lia. }
  destruct (shr_fexp_spec m1 e1 loc_Exact) as [Hm2 He2]; [lia|].
  destruct (shr_fexp prec emax m1 e1 loc_Exact) as [mrs2 e2]. cbn [fst snd] in Hm2, He2.
  assert (Hp2 : shift_of m1 e1 = 0).
  { destruct (Z.eq_dec m1 0) as [H0|Hne].
    - rewrite H0, He1'. reflexivity.
    - assert (Zdigits2 m1 <= 53) by (apply Zdigits2_le_of_lt; [lia|]; change (2 ^ 53) with (2 * 2 ^ 52); lia).
      unfold shift_of, fexp, emin, prec, emax. lia. }
  rewrite Hp2 in He2.
  destruct (shr_m mrs2); [discriminate| |discriminate].
  destruct (e2 <=? emax - prec); [|discriminate].
  intros [= _ _ <-]. lia.
Qed.

(** Raising the exponent of the value to round by one raises the exponent
    of a result that is neither at the bottom nor at the top of the range,
    and leaves its mantissa alone. *)
Lemma binary_round_aux_succ s m e l s' m' e' :
  0 <= m ->
  binary_round_aux prec emax s m e l = S754_finite s' m' e' ->
  -1074 < e' < 971 ->
  binary_round_aux prec emax s m (e + 1) l = S754_finite s' m' (e' + 1).
Proof.
  intros Hm Hres He'.
  assert (Hnorm : -1074 <= Zdigits2 m + e - 53 \/ -1074 <= e).
  { destruct (Z_le_gt_dec (-1074) (Zdigits2 m + e - 53)); [now left|].
    destruct (Z_le_gt_dec (-1074) e); [now right|].
    pose proof (binary_round_aux_subnormal s m e l s' m' e' Hm) as H.
    rewrite H in He'; [lia|lia|lia|assumption]. }
  unfold binary_round_aux in *.
  rewrite (shr_fexp_succ m e l Hnorm).
  pose proof (shift_of_exponent m e) as He1lo.
  destruct (shr_fexp_spec m e l Hm) as [_ He1].
  destruct (shr_fexp prec emax m e l) as [mrs1 e1]. cbn [fst snd] in *.
  set (m1 := round_nearest_even (shr_m mrs1) (loc_of_shr_record mrs1)) in *.
  rewrite (shr_fexp_succ m1 e1 loc_Exact) by (right; lia).
  destruct (shr_fexp prec emax m1 e1 loc_Exact) as [mrs2 e2]. cbn [fst snd] in *.
  destruct (shr_m mrs2) as [|m2|m2]; [discriminate| |discriminate].
  destruct (e2 <=? emax - prec) eqn:Hle; [|discriminate].
  injection Hres as <- <- <-.
  assert (Hle' : (e2 + 1 <=? emax - prec) = true)
    by (apply Z.leb_le; unfold emax, prec; lia).
  now rewrite Hle'.
Qed.

Lemma Zdigits2_mul_pow2 m p :
  0 < m -> 0 <= p -> Zdigits2 (m * 2 ^ p) = Zdigits2 m + p.
Proof.
  intros Hm Hp. destruct (Zdigits2_bounds m Hm) as [Hlo Hhi].
  pose proof (Zdigits2_pos m Hm) as Hd.
  assert (H2p : 0 < 2 ^ p) by (apply Z.pow_pos_nonneg; lia).
  apply Zdigits2_unique; [|lia].
  replace (Zdigits2 m + p - 1) with (Zdigits2 m - 1 + p) by lia.
  rewrite !Z.pow_add_r by lia. split; nia.
Qed.

(** A representable value rounds to itself. *)
Lemma binary_round_aux_exact s m e p :
  wf (S754_finite s m e) = true -> 0 <= p ->
  binary_round_aux prec emax s (Z.pos m * 2 ^ p) (e - p) loc_Exact
  = S754_finite s m e.
Proof.
  intros Hwf Hp. apply wf_finite in Hwf as (He & Hd & Hcan).
  assert (H2p : 0 < 2 ^ p) by (apply Z.pow_pos_nonneg; lia).
  assert (HM : 0 <= Z.pos m * 2 ^ p) by lia.
  assert (Hsh : shift_of (Z.pos m * 2 ^ p) (e - p) = p).
  { unfold shift_of. rewrite Zdigits2_mul_pow2 by lia.
    unfold fexp, emin, prec, emax. lia. }
  assert (Hsh2 : shift_of (Z.pos m) e = 0)
    by (unfold shift_of, fexp, emin, prec, emax; lia).
  unfold binary_round_aux.
  destruct (shr_fexp_spec (Z.pos m * 2 ^ p) (e - p) loc_Exact HM) as [Hm1 He1].
  pose proof (shr_fexp_shifted (Z.pos m * 2 ^ p) (e - p) HM) as [_ Hfl].
  destruct (shr_fexp prec emax (Z.pos m * 2 ^ p) (e - p) loc_Exact) as [mrs1 e1].
  cbn [fst snd] in *. rewrite Hsh in *.
  rewrite Z.div_mul in Hm1 by lia. rewrite Z.mod_mul in Hfl by lia.
  assert (Hr : round_nearest_even (shr_m mrs1) (loc_of_shr_record mrs1) = Z.pos m).
  { destruct (round_up_inexact mrs1) as [Heq | [_ Hrs]]; [congruence|].
    now destruct (Hfl Hrs). }
  rewrite Hr. replace e1 with e by lia.
  destruct (shr_fexp_spec (Z.pos m) e loc_Exact) as [Hm2 He2]; [lia|].
  destruct (shr_fexp prec emax (Z.pos m) e loc_Exact) as [mrs2 e2].
  cbn [fst snd] in *. rewrite Hsh2 in *.
  rewrite Z.pow_0_r, Z.div_1_r in Hm2. rewrite Hm2.
  replace e2 with e by lia.
  assert (Hle : (e <=? emax - prec) = true)
    by (apply Z.leb_le; unfold emax, prec; lia).
  now rewrite Hle.
Qed.

Lemma roomy_inv x :
  roomy x = true -> exists s m e, x = S754_finite s m e /\ -1072 <= e < 971.
Proof.
  destruct x as [s|s| |s m e]; try discriminate. cbn [roomy].
  rewrite andb_true_iff, Z.leb_le, Z.ltb_lt. intros H. now exists s, m, e.
Qed.

(** [2 * x] is exact for a float with room above it. *)
Lemma fmul_two x : wf x = true -> roomy x = true -> fmul two x = double x.
Proof.
  intros Hwf Hr. destruct (roomy_inv x Hr) as (s & m & e & -> & He).
  cbn [double]. unfold fmul, two. cbn [SFmul xorb].
  pose proof (wf_finite s m e Hwf) as (_ & Hd & Hcan).
  assert (Hwf' : wf (S754_finite s m (e + 1)) = true).
  { unfold wf, valid_binary, bounded, canonical_mantissa.
    change (Z.pos (digits2_pos m)) with (Zdigits2 (Z.pos m)).
    apply andb_true_iff. split; [apply Z.eqb_eq|apply Z.leb_le];
      unfold fexp, emin, prec, emax; lia. }
  pose proof (binary_round_aux_exact s m (e + 1) 52 Hwf') as H.
  replace (e + 1 - 52) with (-51 + e) in H by lia.
  rewrite Pos2Z.inj_mul, Z.mul_comm. apply H. lia.
Qed.

Lemma fmul_double b r :
  roomy b = true -> roomy (fmul b r) = true ->
  fmul (double b) r = double (fmul b r).
Proof.
  intros Hb Hr. destruct (roomy_inv b Hb) as (sb & mb & eb & -> & Heb).
  destruct r as [sr|sr| |sr mr er]; [discriminate Hr ..|].
  destruct (roomy_inv _ Hr) as (s' & m' & e' & Hres & He').
  rewrite Hres. cbn [double]. unfold fmul in *. cbn [SFmul] in *.
  replace (eb + 1 + er) with (eb + er + 1) by lia.
  apply binary_round_aux_succ; [lia|assumption|lia].
Qed.

(** ** Doubling the dividend *)

(** A value below [2^53] units of the smallest exponent rounds to a float
    in the bottom two binades. *)
Lemma binary_round_aux_bottom s m l s' m' e' :
  0 <= m < 2 ^ 53 ->
  binary_round_aux prec emax s m (-1074) l = S754_finite s' m' e' ->
  e' <= -1073.
Proof.
  intros Hm. unfold binary_round_aux.
  assert (Hsh : shift_of m (-1074) = 0).
  { destruct (Z.eq_dec m 0) as [->|Hne]; [reflexivity|].
    assert (Zdigits2 m <= 53) by (apply Zdigits2_le_of_lt; lia).
    unfold shift_of, fexp, emin, prec, emax. lia. }
  destruct (shr_fexp_spec m (-1074) l) as [Hm1 He1]; [lia|].
  destruct (shr_fexp prec emax m (-1074) l) as [mrs1 e1]. cbn [fst snd] in *.
  rewrite Hsh, Z.pow_0_r, Z.div_1_r in Hm1. rewrite Hsh in He1.
  set (m1 := round_nearest_even (shr_m mrs1) (loc_of_shr_record mrs1)).
  assert (Hm1b : 0 <= m1 <= 2 ^ 53).
  { pose proof (round_nearest_even_bounds (shr_m mrs1) (loc_of_shr_record mrs1)) as Hb.
    fold m1 in Hb. lia. }
  destruct (shr_fexp_spec m1 e1 loc_Exact) as [_ He2]; [lia|].
  destruct (shr_fexp prec emax m1 e1 loc_Exact) as [mrs2 e2]. cbn [fst snd] in *.
  assert (Hsh2 : shift_of m1 e1 <= 1).
  { destruct (Z.eq_dec m1 0) as [H0|Hne].
    - rewrite H0. subst e1. cbv. discriminate.
    - assert (Zdigits2 m1 <= 54).
      { apply Zdigits2_le_of_lt; [lia|]. change (2 ^ 54) with (2 * 2 ^ 53). lia. }
      unfold shift_of, fexp, emin, prec, emax. lia. }
  destruct (shr_m mrs2); [discriminate| |discriminate].
  destruct (e2 <=? emax - prec); [|discriminate].
  intros [= _ _ <-]. lia.
Qed.

Lemma shiftl_pow2 m s : 0 <= s -> Z.shiftl m s = m * 2 ^ s.
Proof. intros Hs. apply Z.shiftl_mul_pow2. assumption. Qed.

(** The core of the division when the exponent of the dividend is raised by
    one: the same quotient and location, one exponent higher, unless the
    quotient is below the normal range. *)
Lemma SFdiv_core_binary_succ mx ex my ey :
  -1074 <= Zdigits2 (Z.pos mx) + ex - (Zdigits2 (Z.pos my) + ey) - 53
  \/ ex - ey < -1074 ->
  SFdiv_core_binary prec emax (Z.pos mx) (ex + 1) (Z.pos my) ey
  = let '(mz, ez, lz) := SFdiv_core_binary prec emax (Z.pos mx) ex (Z.pos my) ey in
    (mz, ez + 1, lz).
Proof.
  intros H. unfold SFdiv_core_binary.
  set (d1 := Zdigits2 (Z.pos mx)) in *. set (d2 := Zdigits2 (Z.pos my)) in *.
  set (e0 := Z.min (fexp prec emax (d1 + ex - (d2 + ey))) (ex - ey)).
  replace (Z.min (fexp prec emax (d1 + (ex + 1) - (d2 + ey))) (ex + 1 - ey))
    with (e0 + 1) by (unfold e0, fexp, emin, prec, emax; lia).
  replace (ex + 1 - ey - (e0 + 1)) with (ex - ey - e0) by lia.
  destruct (Z.div_eucl _ _) as [q r]. reflexivity.
Qed.

Lemma SFdiv_core_binary_small mx ex my ey :
  Zdigits2 (Z.pos mx) + ex - (Zdigits2 (Z.pos my) + ey) - 53 < -1074 ->
  -1074 <= ex - ey ->
  exists mz lz,
    SFdiv_core_binary prec emax (Z.pos mx) ex (Z.pos my) ey = (mz, -1074, lz)
    /\ 0 <= mz < 2 ^ 53.
Proof.
  intros HD Hex. unfold SFdiv_core_binary.
  set (d1 := Zdigits2 (Z.pos mx)) in *. set (d2 := Zdigits2 (Z.pos my)) in *.
  replace (Z.min (fexp prec emax (d1 + ex - (d2 + ey))) (ex - ey))
    with (-1074) by (unfold fexp, emin, prec, emax; lia).
  set (s := ex - ey - -1074).
  set (m' := match s with Z.pos _ => Z.shiftl (Z.pos mx) s | 0 => Z.pos mx | Z.neg _ => 0 end).
  assert (Hm' : m' = Z.pos mx * 2 ^ s).
  { unfold m'. assert (Hs : 0 <= s) by (unfold s; lia).
    destruct s as [|p|p]; [rewrite Z.pow_0_r; lia|apply shiftl_pow2; lia|lia]. }
  assert (Hq : fst (Z.div_eucl m' (Z.pos my)) = m' / Z.pos my) by reflexivity.
  destruct (Z.div_eucl m' (Z.pos my)) as [q r]. cbn [fst] in Hq. subst q.
  eexists _, _. split; [reflexivity|].
  assert (Hs : 0 <= s) by (unfold s; lia).
  assert (H2s : 0 < 2 ^ s) by (apply Z.pow_pos_nonneg; lia).
  split; [apply Z.div_pos; lia|].
  apply Z.div_lt_upper_bound; [lia|].
  destruct (Zdigits2_bounds (Z.pos mx)) as [_ Hx]; [lia|]. fold d1 in Hx.
  destruct (Zdigits2_bounds (Z.pos my)) as [Hy _]; [lia|]. fold d2 in Hy.
  pose proof (Zdigits2_pos (Z.pos my)) as Hd2. fold d2 in Hd2.
  pose proof (Zdigits2_pos (Z.pos mx)) as Hd1. fold d1 in Hd1.
  rewrite Hm'.
  assert (Hlt : Z.pos mx * 2 ^ s < 2 ^ (d1 + s)) by (rewrite Z.pow_add_r by lia; nia).
  assert (Hle : 2 ^ (d1 + s) <= 2 ^ (d2 - 1 + 53)) by (apply Z.pow_le_mono_r; unfold s; lia).
  assert (Hge : 2 ^ (d2 - 1 + 53) <= Z.pos my * 2 ^ 53).
  { rewrite Z.pow_add_r by lia. apply Z.mul_le_mono_nonneg_r; [|assumption].
    apply Z.pow_nonneg. lia. }
  lia.
Qed.

Lemma fdiv_double x y :
  roomy x = true -> roomy (fdiv x y) = true ->
  fdiv (double x) y = double (fdiv x y).
Proof.
  intros Hx Hr. destruct (roomy_inv x Hx) as (sx & mx & ex & -> & Hex).
  destruct y as [sy|sy| |sy my ey]; [discriminate Hr ..|].
  destruct (roomy_inv _ Hr) as (s' & m' & e' & Hres & He').
  rewrite Hres. cbn [double]. unfold fdiv in *. cbn [SFdiv] in *.
  pose proof (SFdiv_core_binary_nonneg mx ex my ey) as Hq.
  destruct (Z_le_gt_dec (-1074)
              (Zdigits2 (Z.pos mx) + ex - (Zdigits2 (Z.pos my) + ey) - 53))
    as [Hn|Hn]; [|destruct (Z_lt_le_dec (ex - ey) (-1074)) as [Hs|Hs]].
  - rewrite SFdiv_core_binary_succ by (left; assumption).
    destruct (SFdiv_core_binary prec emax (Z.pos mx) ex (Z.pos my) ey) as [[mz ez] lz].
    cbn [fst] in Hq. apply binary_round_aux_succ; [assumption|assumption|lia].
  - rewrite SFdiv_core_binary_succ by (right; assumption).
    destruct (SFdiv_core_binary prec emax (Z.pos mx) ex (Z.pos my) ey) as [[mz ez] lz].
    cbn [fst] in Hq. apply binary_round_aux_succ; [assumption|assumption|lia].
  - exfalso.
    destruct (SFdiv_core_binary_small mx ex my ey) as (mz & lz & Hcore & Hmz); [lia|lia|].
    rewrite Hcore in Hres.
    pose proof (binary_round_aux_bottom _ _ _ _ _ _ Hmz Hres). lia.
Qed.

(** ** The nearest hundredth *)

Lemma round_half_even_nearest n d :
  0 < d -> - d <= 2 * (n - round_half_even n d * d) <= d.
Proof.
  intros Hd. unfold round_half_even.
  pose proof (Z.div_mod n d) as Hdm. pose proof (Z.mod_pos_bound n d Hd) as Hr.
  destruct (2 * (n mod d) ?= d) eqn:Hc.
  - apply Z.compare_eq in Hc. destruct (Z.even (n / d)); nia.
  - rewrite Z.compare_lt_iff in Hc. nia.
  - rewrite Z.compare_gt_iff in Hc. nia.
Qed.

Lemma hundredths_neg m e :
  e < 0 -> hundredths m e = round_half_even (Z.pos m * 100) (2 ^ (- e)).
Proof. destruct e; try lia. reflexivity. Qed.

Lemma hundredths_nonneg m e :
  0 <= e -> hundredths m e = Z.pos m * 100 * 2 ^ e.
Proof. destruct e; try lia; reflexivity. Qed.

(** [hundredths] is a nearest integer to [100 * m * 2^e]. *)
Lemma hundredths_nearest m e :
  e < 0 ->
  - 2 ^ (- e) <= 2 * (Z.pos m * 100 - hundredths m e * 2 ^ (- e)) <= 2 ^ (- e).
Proof.
  intros He. rewrite hundredths_neg by assumption.
  apply round_half_even_nearest. apply Z.pow_pos_nonneg; lia.
Qed.

(** Doubling a float moves its two-decimal rounding to within one
    hundredth of the doubled rounding. *)
Lemma hundredths_double m e :
  -1 <= hundredths m (e + 1) - 2 * hundredths m e <= 1.
Proof.
  destruct (Z_lt_le_dec e 0) as [Hneg|Hpos].
  - pose proof (hundredths_nearest m e Hneg) as H1.
    destruct (Z.eq_dec e (-1)) as [->|Hne].
    + change (-1 + 1) with 0. rewrite (hundredths_nonneg m 0) by lia.
      change (2 ^ (- -1)) with 2 in H1. change (2 ^ 0) with 1. lia.
    + pose proof (hundredths_nearest m (e + 1)) as H2.
      replace (- e) with (- (e + 1) + 1) in H1 by lia.
      rewrite Z.pow_add_r, Z.pow_1_r in H1 by lia.
      assert (HD : 0 < 2 ^ (- (e + 1))) by (apply Z.pow_pos_nonneg; lia).
      specialize (H2 ltac:(lia)).
      set (D := 2 ^ (- (e + 1))) in *. nia.
  - rewrite !hundredths_nonneg by lia. rewrite Z.pow_add_r by lia. lia.
Qed.

(** * The claims about the risk sizer *)

Lemma calculate_lot_size_eq b r d :
  wf d = true ->
  calculate_lot_size b r d
  = if is_zero d then Raise ZeroDivisionError else Ok (size_spec b r d).
Proof.
  intros Hd. unfold calculate_lot_size. rewrite lot_size_raises_iff by assumption.
  now destruct (is_zero d).
Qed.

(** C4, as amended. The sizer validates nothing: it fails only when the
    stop distance is a zero, and then with ZeroDivisionError; for every other
    stop distance, negative ones included, and whatever the balance and the
    risk fraction, it returns a number. *)
Theorem C4_only_a_zero_stop_distance_raises (b r d : float) :
  wf d = true ->
  (is_zero d = true -> calculate_lot_size b r d = Raise ZeroDivisionError)
  /\ (is_zero d = false -> exists size, calculate_lot_size b r d = Ok size).
Proof.
  intros Hd. rewrite calculate_lot_size_eq by assumption.
  split; intros ->; [reflexivity|eexists; reflexivity].
Qed.

(** C5 (the sizing formula). For valid inputs the sizer returns, without
    raising, the value of the formula of the specification with the constant
    10, computed in binary64 and rounded by [round(_, 2)]: when the quotient
    is the finite float [m * 2^e], the size is the double nearest to
    [n / 100], for [n] an integer nearest to [100 * m * 2^e]. The function
    is a function of its three arguments alone. *)
Theorem C5_size_is_the_formula (b r d : float) :
  valid_inputs b r d = true ->
  calculate_lot_size b r d = Ok (size_spec b r d)
  /\ pip_value_constant = of_int 10
  /\ (forall s m e,
        fdiv (fmul b r) (fmul d pip_value_constant) = S754_finite s m e ->
        size_spec b r d
        = match hundredths m e with
          | Z.pos n => fdiv (S754_finite s n 0) (S754_finite false 100 0)
          | _ => S754_zero s
          end
        /\ (e < 0 ->
            - 2 ^ (- e) <= 2 * (Z.pos m * 100 - hundredths m e * 2 ^ (- e))
                        <= 2 ^ (- e))).
Proof.
  intros Hv. split; [|split; [reflexivity|]].
  - unfold calculate_lot_size. now rewrite valid_lot_size.
  - intros s m e Hq. split.
    + unfold size_spec. now rewrite Hq.
    + intros He. now apply hundredths_nearest.
Qed.

(** C6, as amended. What doubles with the balance is the lot size before
    rounding: when the balance, the risk amount and the unrounded lot size
    are finite floats away from the ends of the exponent range, the
    unrounded lot size for twice the balance is exactly twice the one for
    the balance; each size is that lot size rounded to 2 decimals, so, in
    hundredths, the size for twice the balance is within one of twice the
    size for the balance. *)
Theorem C6_lot_size_doubles_before_rounding (b r d lot : float) :
  wf b = true -> wf d = true ->
  roomy b = true -> roomy (fmul b r) = true ->
  lot_size b r d = Ok lot -> roomy lot = true ->
  lot_size (fmul two b) r d = Ok (double lot)
  /\ calculate_lot_size b r d = Ok (round2 lot)
  /\ calculate_lot_size (fmul two b) r d = Ok (round2 (double lot))
  /\ (forall s m e, lot = S754_finite s m e ->
        -1 <= hundredths m (e + 1) - 2 * hundredths m e <= 1).
Proof.
  intros Hwb Hwd Hb Hra Hlot Hr.
  rewrite lot_size_raises_iff in Hlot by assumption.
  destruct (is_zero d) eqn:Hz; [discriminate|]. injection Hlot as <-.
  assert (H2 : lot_size (fmul two b) r d
               = Ok (double (fdiv (fmul b r) (fmul d ten)))).
  { rewrite lot_size_raises_iff, Hz by assumption.
    rewrite fmul_two, fmul_double, fdiv_double by assumption. reflexivity. }
  split; [exact H2|]. split; [|split].
  - unfold calculate_lot_size. now rewrite lot_size_raises_iff, Hz.
  - unfold calculate_lot_size. now rewrite H2.
  - intros s m e _. apply hundredths_double.
Qed.

(** C7, as amended. For valid inputs with a finite balance, or with a
    stop distance whose tenfold is finite, the sizer returns a float that is
    not negative (a zero, a positive number or, on overflow of the quotient,
    the positive infinity) and not a NaN, so that the results of two calls
    with the same arguments compare equal. For the other valid inputs (an
    infinite balance and a stop distance whose tenfold overflows) it returns
    a NaN. *)
Theorem C7_size_is_nonnegative_and_repeatable (b r d : float) :
  valid_inputs b r d = true ->
  (is_finite b = true \/ is_finite (fmul d ten) = true ->
   exists size,
     calculate_lot_size b r d = Ok size
     /\ ge0 size = true
     /\ SFeqb size size = true)
  /\ (is_finite b = false -> is_finite (fmul d ten) = false ->
      calculate_lot_size b r d = Ok S754_nan).
Proof.
  intros Hv. unfold calculate_lot_size. rewrite (valid_lot_size b r d Hv).
  split.
  - intros Hfin. pose proof (valid_lot_size_nonneg b r d Hv Hfin) as Hs.
    apply (round2_sign false) in Hs.
    eexists. split; [reflexivity|]. split; [now apply has_sign_ge0|].
    now apply (SFeqb_refl false).
  - intros Hb Hy. now rewrite (valid_lot_size_nan b r d Hv Hb Hy).
Qed.

(** * Further properties of the risk sizer *)

(** ** Signs *)

Lemma binary_round_aux_opp s m e l :
  binary_round_aux prec emax (negb s) m e l
  = SFopp (binary_round_aux prec emax s m e l).
Proof.
  unfold binary_round_aux.
  destruct (shr_fexp prec emax m e l) as [mrs1 e1].
  destruct (shr_fexp prec emax _ e1 loc_Exact) as [mrs2 e2].
  destruct (shr_m mrs2); [reflexivity| |reflexivity].
  destruct (e2 <=? emax - prec); reflexivity.
Qed.

Lemma fmul_opp_l x y : fmul (SFopp x) y = SFopp (fmul x y).
Proof.
  unfold fmul.
  destruct x as [sx|sx| |sx mx ex], y as [sy|sy| |sy my ey]; cbn [SFmul SFopp];
    rewrite <- ?negb_xorb_l; first [apply binary_round_aux_opp|reflexivity].
Qed.

Lemma fmul_opp_r x y : fmul x (SFopp y) = SFopp (fmul x y).
Proof.
  unfold fmul.
  destruct x as [sx|sx| |sx mx ex], y as [sy|sy| |sy my ey]; cbn [SFmul SFopp];
    rewrite <- ?negb_xorb_r; first [apply binary_round_aux_opp|reflexivity].
Qed.

Lemma fdiv_opp_l x y : fdiv (SFopp x) y = SFopp (fdiv x y).
Proof.
  unfold fdiv.
  destruct x as [sx|sx| |sx mx ex], y as [sy|sy| |sy my ey]; cbn [SFdiv SFopp];
    rewrite <- ?negb_xorb_l; try reflexivity.
  destruct (SFdiv_core_binary prec emax (Z.pos mx) ex (Z.pos my) ey) as [[mz ez] lz].
  apply binary_round_aux_opp.
Qed.

Lemma fdiv_opp_r x y : fdiv x (SFopp y) = SFopp (fdiv x y).
Proof.
  unfold fdiv.
  destruct x as [sx|sx| |sx mx ex], y as [sy|sy| |sy my ey]; cbn [SFdiv SFopp];
    rewrite <- ?negb_xorb_r; try reflexivity.
  destruct (SFdiv_core_binary prec emax (Z.pos mx) ex (Z.pos my) ey) as [[mz ez] lz].
  apply binary_round_aux_opp.
Qed.

Lemma round2_opp x : round2 (SFopp x) = SFopp (round2 x).
Proof.
  destruct x as [s|s| |s m e]; cbn [round2 SFopp]; try reflexivity.
  destruct (hundredths m e) as [|n|n]; [reflexivity| |reflexivity].
  exact (fdiv_opp_l (S754_finite s n 0) (S754_finite false 100 0)).
Qed.

Lemma is_zero_opp x : is_zero (SFopp x) = is_zero x.
Proof. now destruct x. Qed.

(** X18 (the size is odd in each argument). Negating the balance, the
    risk fraction or the stop distance negates the size and changes nothing
    else: the call raises for the same stop distances, and a NaN stays a
    NaN. So a negative balance or a negative stop distance is not rejected;
    it yields the size of the positive value with a minus sign. *)
Theorem size_is_odd_in_each_argument (b r d : float) :
  calculate_lot_size (SFopp b) r d = negated (calculate_lot_size b r d)
  /\ calculate_lot_size b (SFopp r) d = negated (calculate_lot_size b r d)
  /\ calculate_lot_size b r (SFopp d) = negated (calculate_lot_size b r d).
Proof.
  unfold negated, calculate_lot_size, lot_size, truediv.
  rewrite !fmul_opp_l, fmul_opp_r, is_zero_opp, fdiv_opp_r, !fdiv_opp_l.
  destruct (is_zero (fmul d (of_int 10)));
    (split; [|split]); try reflexivity; f_equal; apply round2_opp.
Qed.

(** ** NaN and zero *)

Lemma fmul_nan_l y : fmul S754_nan y = S754_nan.
Proof. reflexivity. Qed.

Lemma fmul_nan_r x : fmul x S754_nan = S754_nan.
Proof. now destruct x. Qed.

Lemma fdiv_nan_r x : fdiv x S754_nan = S754_nan.
Proof. now destruct x. Qed.

(** X19 (a NaN goes through). The sizer never raises on a NaN: if the
    stop distance is not a zero and any of the three arguments is a NaN, the
    result is a NaN. *)
Theorem nan_argument_gives_nan_size (b r d : float) :
  wf d = true -> is_zero d = false ->
  b = S754_nan \/ r = S754_nan \/ d = S754_nan ->
  calculate_lot_size b r d = Ok S754_nan.
Proof.
  intros Hwf Hz Hnan. rewrite calculate_lot_size_eq by assumption. rewrite Hz.
  f_equal. unfold size_spec, pip_value_constant.
  destruct Hnan as [-> | [-> | ->]].
  - reflexivity.
  - now rewrite fmul_nan_r.
  - now rewrite fmul_nan_l, fdiv_nan_r.
Qed.

Lemma fmul_zero_finite x y :
  (is_zero x = true /\ is_finite y = true) \/ (is_finite x = true /\ is_zero y = true) ->
  is_zero (fmul x y) = true.
Proof.
  destruct x as [sx|sx| |sx mx ex], y as [sy|sy| |sy my ey];
    intros [[H1 H2]|[H1 H2]]; try discriminate; reflexivity.
Qed.

Lemma fdiv_zero_l x y :
  is_zero x = true -> is_zero y = false -> y <> S754_nan -> is_zero (fdiv x y) = true.
Proof.
  destruct x as [sx|sx| |sx mx ex]; try discriminate. intros _.
  destruct y as [sy|sy| |sy my ey]; intros Hy Hn; try discriminate;
    [reflexivity|congruence|reflexivity].
Qed.

Lemma fmul_ten_not_nan d : wf d = true -> d <> S754_nan -> fmul d ten <> S754_nan.
Proof.
  destruct d as [s|s| |s m e]; intros Hwf Hd; try discriminate; [congruence|].
  pose proof (fmul_ten_nonzero s m e Hwf) as Hs.
  intros Heq. rewrite Heq in Hs. exact Hs.
Qed.

(** X20 (nothing at risk, nothing to trade). When the balance or the risk
    fraction is a zero, the other one being finite, and the stop distance is
    neither a zero nor a NaN, the size is a zero: no error, no NaN. *)
Theorem zero_risk_amount_gives_zero_size (b r d : float) :
  wf d = true -> is_zero d = false -> d <> S754_nan ->
  (is_zero b = true /\ is_finite r = true) \/ (is_finite b = true /\ is_zero r = true) ->
  exists size, calculate_lot_size b r d = Ok size /\ is_zero size = true.
Proof.
  intros Hwf Hz Hn Hzero. rewrite calculate_lot_size_eq by assumption. rewrite Hz.
  eexists. split; [reflexivity|]. unfold size_spec, pip_value_constant.
  pose proof (fmul_zero_finite b r Hzero) as Hra.
  assert (Hq : is_zero (fdiv (fmul b r) (fmul d ten)) = true).
  { apply fdiv_zero_l; [assumption| |now apply fmul_ten_not_nan].
    now rewrite fmul_ten_is_zero. }
  destruct (fdiv (fmul b r) (fmul d ten)); try discriminate. reflexivity.
Qed.

(** ** Sizes that round to zero *)

Lemma round_half_even_zero_iff n d :
  0 < n -> 0 < d -> (round_half_even n d = 0 <-> 2 * n <= d).
Proof.
  intros Hn Hd. unfold round_half_even.
  pose proof (Z.div_mod n d) as Hdm. pose proof (Z.mod_pos_bound n d Hd) as Hr.
  assert (Hq : 0 <= n / d) by (apply Z.div_pos; lia).
  specialize (Hdm ltac:(lia)).
  destruct (2 * (n mod d) ?= d) eqn:Hc.
  - apply Z.compare_eq in Hc. destruct (Z.even (n / d)) eqn:Hev.
    + split; intros H; nia.
    + split; intros H; [lia|].
      assert (H0 : n / d = 0) by nia. rewrite H0 in Hev. discriminate.
  - rewrite Z.compare_lt_iff in Hc. split; intros H; nia.
  - rewrite Z.compare_gt_iff in Hc. split; intros H; [lia|nia].
Qed.

Lemma round_half_even_ge0 n d : 0 < n -> 0 < d -> 0 <= round_half_even n d.
Proof.
  intros Hn Hd. unfold round_half_even.
  assert (Hq : 0 <= n / d) by (apply Z.div_pos; lia).
  destruct (2 * (n mod d) ?= d); [destruct (Z.even (n / d))| |]; lia.
Qed.

Lemma hundredths_ge0 m e : 0 <= hundredths m e.
Proof.
  destruct (Z_lt_le_dec e 0) as [Hneg|Hpos].
  - rewrite hundredths_neg by assumption.
    apply round_half_even_ge0; [lia|apply Z.pow_pos_nonneg; lia].
  - rewrite hundredths_nonneg by assumption.
    assert (0 < 2 ^ e) by (apply Z.pow_pos_nonneg; lia). nia.
Qed.

Lemma hundredths_zero_iff m e :
  hundredths m e = 0 <-> e < 0 /\ 200 * Z.pos m <= 2 ^ (- e).
Proof.
  destruct (Z_lt_le_dec e 0) as [Hneg|Hpos].
  - rewrite hundredths_neg by assumption.
    rewrite round_half_even_zero_iff; [lia|lia|apply Z.pow_pos_nonneg; lia].
  - rewrite hundredths_nonneg by assumption.
    assert (0 < 2 ^ e) by (apply Z.pow_pos_nonneg; lia). split; [nia|lia].
Qed.

(** The quotient of a positive integer by 100 is never rounded to zero. *)
Lemma SFdiv_core_by_100 n :
  exists q e l,
    SFdiv_core_binary prec emax (Z.pos n) 0 100 0 = (q, e, l)
    /\ 0 < q /\ -1074 <= e.
Proof.
  unfold SFdiv_core_binary.
  change (Zdigits2 100) with 7.
  assert (Hd1 : 0 < Zdigits2 (Z.pos n)) by (apply Zdigits2_pos; lia).
  destruct (Zdigits2_bounds (Z.pos n)) as [Hlo _]; [lia|].
  set (d1 := Zdigits2 (Z.pos n)) in *.
  set (e' := Z.min (fexp prec emax (d1 + 0 - (7 + 0))) (0 - 0)).
  assert (He' : e' = Z.min (d1 - 60) 0) by (unfold e', fexp, emin, prec, emax; lia).
  set (s := 0 - 0 - e').
  assert (Hs : 0 <= s) by (unfold s; lia).
  set (m' := match s with
             | Z.pos _ => Z.shiftl (Z.pos n) s
             | 0 => Z.pos n
             | Z.neg _ => 0
             end).
  assert (Hm' : m' = Z.pos n * 2 ^ s).
  { unfold m'. destruct s as [|p|p] eqn:Hsp; [|apply shiftl_pow2; lia|lia].
    rewrite Z.pow_0_r. lia. }
  assert (Hbig : 2 ^ 7 <= m').
  { rewrite Hm'. assert (H2s : 0 < 2 ^ s) by (apply Z.pow_pos_nonneg; lia).
    destruct (Z_le_gt_dec 60 d1) as [Hge|Hlt].
    - assert (2 ^ 7 <= 2 ^ (d1 - 1)) by (apply Z.pow_le_mono_r; lia). nia.
    - assert (Hsum : 2 ^ (d1 - 1) * 2 ^ s = 2 ^ 59).
      { rewrite <- Z.pow_add_r by lia. f_equal. unfold s. lia. }
      assert (2 ^ 7 <= 2 ^ 59) by (apply Z.pow_le_mono_r; lia). nia. }
  pose proof (Z_div_mod m' 100 ltac:(lia)) as Hdiv.
  destruct (Z.div_eucl m' 100) as [q rem].
  exists q, e', (new_location 100 rem).
  split; [reflexivity|]. change (2 ^ 7) with 128 in Hbig. lia.
Qed.

Lemma fdiv_by_100_nonzero s n :
  nonzero_with_sign s (fdiv (S754_finite s n 0) (S754_finite false 100 0)).
Proof.
  unfold fdiv. cbn [SFdiv]. rewrite xorb_false_r.
  destruct (SFdiv_core_by_100 n) as (q & e & l & -> & Hq & He).
  apply binary_round_aux_nonzero; [assumption|lia].
Qed.

Lemma round2_is_zero_iff s m e :
  is_zero (round2 (S754_finite s m e)) = true
  <-> e < 0 /\ 200 * Z.pos m <= 2 ^ (- e).
Proof.
  cbn [round2]. pose proof (hundredths_zero_iff m e) as Hz.
  pose proof (hundredths_ge0 m e) as Hge.
  destruct (hundredths m e) as [|n|n]; [| |lia].
  - split; [intros _; now apply Hz|reflexivity].
  - pose proof (fdiv_by_100_nonzero s n) as Hnz.
    destruct (fdiv (S754_finite s n 0) (S754_finite false 100 0));
      cbn [nonzero_with_sign is_zero] in *; try contradiction;
      (split; [discriminate|]); intros H; apply Hz in H; discriminate.
Qed.

(** X21 (sizes that round to zero). When the unrounded lot size is the
    finite float [m * 2^e] (of either sign), the sizer returns a zero exactly
    when that magnitude is at most half a hundredth, [m * 2^e <= 0.005];
    above it the result is not a zero and has the sign of the unrounded
    value. So a small account or a wide stop yields the size 0.0 without any
    error. *)
Theorem size_is_zero_up_to_half_a_hundredth (b r d : float) s m e :
  lot_size b r d = Ok (S754_finite s m e) ->
  exists size,
    calculate_lot_size b r d = Ok size
    /\ (is_zero size = true <-> e < 0 /\ 200 * Z.pos m <= 2 ^ (- e))
    /\ (is_zero size = false -> nonzero_with_sign s size).
Proof.
  intros Hlot. unfold calculate_lot_size. rewrite Hlot.
  eexists. split; [reflexivity|]. split; [apply round2_is_zero_iff|].
  cbn [round2]. destruct (hundredths m e) as [|n|n]; try discriminate.
  intros _. apply fdiv_by_100_nonzero.
Qed.


(** * Properties of the orchestrator *)

Section CoreProperties.

Context {W DataFrame : Type}.
Variable env : @Env W.
Variable g : globals.

Abbreviation state := (@state W DataFrame).
Abbreviation M := (@M W DataFrame).

Ltac unfold_M :=
  unfold time_sleep, call_fetch_candles, call_generate_signal, logging_info,
    logging_error, try_except_Exception, get_self, emit, call, lift,
    mbind, M_bind, mret, M_ret in *.

(** ** Comparison of times *)

Lemma time_cmp_antisym a b : time_cmp b a = CompOpp (time_cmp a b).
Proof.
  unfold time_cmp.
  rewrite (Z.compare_antisym (hour a)), (Z.compare_antisym (minute a)),
    (Z.compare_antisym (second a)), (Z.compare_antisym (microsecond a)).
  destruct (hour a ?= hour b), (minute a ?= minute b),
    (second a ?= second b); reflexivity.
Qed.

Lemma time_cmp_refl a : time_cmp a a = Eq.
Proof. unfold time_cmp. now rewrite !Z.compare_refl. Qed.

Lemma time_le_refl a : time_le a a = true.
Proof. unfold time_le. now rewrite time_cmp_refl. Qed.

Lemma time_lt_not_le a b : time_lt a b = true -> time_le b a = false.
Proof.
  unfold time_lt, time_le. rewrite (time_cmp_antisym a b).
  destruct (time_cmp a b); simpl; congruence.
Qed.

(** ** The two branches of a cycle *)

Lemma state_eta (st : state) :
  {| self := self st; world := world st; trace := trace st |} = st.
Proof. now destruct st. Qed.

Lemma run_cycle_outside (st : state) :
  session_open env g st = false -> run_cycle env g st = (Ok tt, idle env st).
Proof.
  unfold session_open, run_cycle, is_trading_session, idle. unfold_M. simpl.
  intros ->. simpl. now rewrite <- app_assoc.
Qed.

Lemma run_cycle_inside (st : state) :
  session_open env g st = true -> run_cycle env g st = polling env g st.
Proof.
  unfold session_open, run_cycle, is_trading_session, polling. unfold_M. simpl.
  intros ->. simpl. now rewrite state_eta.
Qed.

(** ** One instrument's turn *)

Lemma poll_pair_at_cap (st : state) pair :
  at_cap g st pair -> poll_pair g pair st = (Ok tt, st).
Proof.
  intros (count & Hc & Hle). unfold poll_pair. unfold_M. simpl.
  rewrite Hc. simpl. apply Z.leb_le in Hle. now rewrite Hle.
Qed.

(** A turn never touches the object, and only appends events about its own
    pair. *)
Lemma poll_pair_frame (st : state) pair :
  self (turn g st pair) = self st /\
  exists added, trace (turn g st pair) = (trace st ++ added)%list
                /\ Forall (turn_event pair) added.
Proof.
  assert (Hnil : forall s : state, self s = self s /\
            exists added, trace s = (trace s ++ added)%list
                          /\ Forall (turn_event pair) added).
  { intros s. split; [reflexivity|]. exists []. now rewrite app_nil_r. }
  unfold turn, poll_pair. unfold_M. simpl.
  destruct (active_positions (self st) !! pair) as [count|]; simpl; [|apply Hnil].
  destruct (MAX_CONCURRENT_TRADES_PER_PAIR g <=? count); simpl; [apply Hnil|].
  destruct (fetch_candles _ pair "H1" 100 (world st)) as [[data|e] w1]; simpl;
    [destruct (generate_signal _ pair data w1) as [[signal|e] w2]; simpl;
     [destruct (py_get signal "signal" (VInt 0)) as [v|e]; simpl;
      [destruct (py_ne_0 v); simpl;
       [destruct (py_getitem signal "signal") as [x|e]; simpl;
        [destruct (py_gt_0 x) as [up|e]; simpl|]|]|]|]|];
    try destruct (is_Exception e); simpl;
    (split; [reflexivity|]); eexists; rewrite <- ?app_assoc;
    (split; [reflexivity|]); repeat constructor.
Qed.

(** The three ways a turn that gets past admission can go wrong or find
    nothing to do, with the exact state each leaves. *)
Lemma poll_pair_fetch_raises (st : state) pair e w1 :
  under_cap g st pair ->
  fetch_candles (data_provider (self st)) pair "H1" 100 (world st) = (Raise e, w1) ->
  is_Exception e = true ->
  poll_pair g pair st =
    (Ok tt, {| self := self st; world := w1;
               trace := trace st ++ [Efetch_candles pair "H1" 100;
                                     Elog ERROR ("Error processing " ++ pair ++ ": "
                                                 ++ exn_str e)] |}).
Proof.
  intros (count & Hc & Hlt) Hf He. unfold poll_pair. unfold_M. simpl.
  rewrite Hc. simpl. apply Z.leb_gt in Hlt. rewrite Hlt, Hf. simpl.
  rewrite He. simpl. now rewrite <- app_assoc.
Qed.

Lemma poll_pair_signal_raises (st : state) pair data w1 e w2 :
  under_cap g st pair ->
  fetch_candles (data_provider (self st)) pair "H1" 100 (world st) = (Ok data, w1) ->
  generate_signal (strategy (self st)) pair data w1 = (Raise e, w2) ->
  is_Exception e = true ->
  poll_pair g pair st =
    (Ok tt, {| self := self st; world := w2;
               trace := trace st ++ [Efetch_candles pair "H1" 100;
                                     Egenerate_signal pair;
                                     Elog ERROR ("Error processing " ++ pair ++ ": "
                                                 ++ exn_str e)] |}).
Proof.
  intros (count & Hc & Hlt) Hf Hs He. unfold poll_pair. unfold_M. simpl.
  rewrite Hc. simpl. apply Z.leb_gt in Hlt. rewrite Hlt, Hf. simpl.
  rewrite Hs. simpl. rewrite He. simpl. now rewrite <- !app_assoc.
Qed.

Lemma poll_pair_not_actionable (st : state) pair data w1 signal w2 :
  under_cap g st pair ->
  fetch_candles (data_provider (self st)) pair "H1" 100 (world st) = (Ok data, w1) ->
  generate_signal (strategy (self st)) pair data w1 = (Ok (ODict signal), w2) ->
  py_ne_0 (default (VInt 0) (signal !! "signal")) = false ->
  poll_pair g pair st =
    (Ok tt, {| self := self st; world := w2;
               trace := trace st ++ [Efetch_candles pair "H1" 100;
                                     Egenerate_signal pair] |}).
Proof.
  intros (count & Hc & Hlt) Hf Hs Hv. unfold poll_pair. unfold_M. simpl.
  rewrite Hc. simpl. apply Z.leb_gt in Hlt. rewrite Hlt, Hf. simpl.
  rewrite Hs. simpl. rewrite Hv. simpl. now rewrite <- !app_assoc.
Qed.

(** ** Errors and the loop *)

Lemma py_get_error o key dflt e : py_get o key dflt = Raise e -> is_Exception e = true.
Proof. destruct o; simpl; [discriminate|]. now intros [= <-]. Qed.

Lemma py_getitem_error o key e : py_getitem o key = Raise e -> is_Exception e = true.
Proof.
  destruct o as [d|v]; simpl.
  - destruct (d !! key); [discriminate|]. now intros [= <-].
  - destruct v; now intros [= <-].
Qed.

Lemma py_gt_0_error v e : py_gt_0 v = Raise e -> is_Exception e = true.
Proof. destruct v; simpl; try discriminate; now intros [= <-]. Qed.

Lemma poll_pair_returns (st : state) pair :
  raises_errors_only (self st) ->
  is_Some (active_positions (self st) !! pair) ->
  fst (poll_pair g pair st) = Ok tt.
Proof.
  intros [Hdp Hstr] [count Hc]. unfold poll_pair. unfold_M. simpl.
  rewrite Hc. simpl.
  destruct (MAX_CONCURRENT_TRADES_PER_PAIR g <=? count); simpl; [reflexivity|].
  destruct (fetch_candles _ pair "H1" 100 (world st)) as [[data|e] w1] eqn:Hf; simpl;
    [|rewrite (Hdp _ _ _ _ _ _ Hf); reflexivity].
  destruct (generate_signal _ pair data w1) as [[signal|e] w2] eqn:Hs; simpl;
    [|rewrite (Hstr _ _ _ _ _ Hs); reflexivity].
  destruct (py_get signal "signal" (VInt 0)) as [v|e] eqn:Hg; simpl;
    [|rewrite (py_get_error _ _ _ _ Hg); reflexivity].
  destruct (py_ne_0 v); simpl; [|reflexivity].
  destruct (py_getitem signal "signal") as [x|e] eqn:Hi; simpl;
    [|rewrite (py_getitem_error _ _ _ Hi); reflexivity].
  destruct (py_gt_0 x) as [up|e] eqn:Hgt; simpl;
    [reflexivity|rewrite (py_gt_0_error _ _ Hgt); reflexivity].
Qed.

Lemma foldl_turn_self (st : state) pairs : self (foldl (turn g) st pairs) = self st.
Proof.
  revert st. induction pairs as [|pair pairs IH]; intros st; simpl; [reflexivity|].
  rewrite IH. apply poll_pair_frame.
Qed.

Lemma turn_trace_mono (st : state) pair ev : ev ∈ trace st -> ev ∈ trace (turn g st pair).
Proof.
  intros Hin. destruct (poll_pair_frame st pair) as (_ & added & -> & _).
  apply elem_of_app. now left.
Qed.

Lemma foldl_turn_trace_mono (st : state) pairs ev :
  ev ∈ trace st -> ev ∈ trace (foldl (turn g) st pairs).
Proof.
  revert st. induction pairs as [|pair pairs IH]; intros st Hin; simpl; [assumption|].
  apply IH. now apply turn_trace_mono.
Qed.

(** With collaborators that raise errors only, the loop runs the turn of
    every pair, one after the other, and ends normally. *)
Lemma for_each_poll_pair (st : state) pairs :
  raises_errors_only (self st) ->
  table_covers (self st) pairs ->
  for_each pairs (poll_pair g) st = (Ok tt, foldl (turn g) st pairs).
Proof.
  revert st. induction pairs as [|pair pairs IH]; intros st Herr Hcov; simpl;
    [reflexivity|].
  unfold mbind, M_bind.
  pose proof (poll_pair_returns st pair Herr) as Hret.
  unfold turn at 2.
  destruct (poll_pair g pair st) as [r st1] eqn:Hp. simpl in *.
  rewrite Hret by (apply Hcov; left). 
  assert (Hself : self st1 = self st).
  { pose proof (poll_pair_frame st pair) as [Hs _]. unfold turn in Hs.
    now rewrite Hp in Hs. }
  apply IH.
  - now rewrite Hself.
  - rewrite Hself. intros q Hq. apply Hcov. now right.
Qed.

Lemma turn_fetches (st : state) pair :
  under_cap g st pair -> Efetch_candles pair "H1" 100 ∈ trace (turn g st pair).
Proof.
  intros (count & Hc & Hlt). unfold turn, poll_pair. unfold_M. simpl.
  rewrite Hc. simpl. apply Z.leb_gt in Hlt. rewrite Hlt.
  destruct (fetch_candles _ pair "H1" 100 (world st)) as [[data|e] w1]; simpl;
    [destruct (generate_signal _ pair data w1) as [[signal|e] w2]; simpl;
     [destruct (py_get signal "signal" (VInt 0)) as [v|e]; simpl;
      [destruct (py_ne_0 v); simpl;
       [destruct (py_getitem signal "signal") as [x|e]; simpl;
        [destruct (py_gt_0 x) as [up|e]; simpl|]|]|]|]|];
    try destruct (is_Exception e); simpl;
    rewrite ?elem_of_app, ?elem_of_cons; tauto.
Qed.

Lemma under_cap_self (st : state) (st' : state) pair :
  self st' = self st -> under_cap g st pair -> under_cap g st' pair.
Proof. unfold under_cap. now intros ->. Qed.

Lemma foldl_turn_fetches (st : state) pairs pair :
  pair ∈ pairs -> under_cap g st pair ->
  Efetch_candles pair "H1" 100 ∈ trace (foldl (turn g) st pairs).
Proof.
  revert st. induction pairs as [|q pairs IH]; intros st Hin Hcap; simpl.
  - now apply elem_of_nil in Hin.
  - apply elem_of_cons in Hin as [->|Hin].
    + apply foldl_turn_trace_mono. now apply turn_fetches.
    + apply IH; [assumption|].
      apply (under_cap_self st); [apply poll_pair_frame|assumption].
Qed.

(** ** What a cycle can add to the trace *)

(** If every turn taken by the object of [st0] adds only events that
    satisfy [P], and so do the sleeps and the informational records, then
    so does a whole cycle started in [st0]. *)
Section Added.

Variable P : event -> Prop.
Variable st0 : state.
Hypothesis turn_adds :
  forall (s : state) q, self s = self st0 ->
    exists added, trace (turn g s q) = (trace s ++ added)%list /\ Forall P added.
Hypothesis sleep_ok : forall secs, P (Esleep secs).
Hypothesis info_ok : forall msg, P (Elog INFO msg).

Lemma for_each_added pairs : forall s : state,
  self s = self st0 ->
  self (snd (for_each pairs (poll_pair g) s)) = self st0 /\
  exists added,
    trace (snd (for_each pairs (poll_pair g) s)) = (trace s ++ added)%list
    /\ Forall P added.
Proof.
  induction pairs as [|q pairs IH]; intros s Hs; simpl.
  - split; [assumption|]. exists []. now rewrite app_nil_r.
  - unfold mbind, M_bind.
    destruct (turn_adds s q Hs) as (added1 & Htr1 & Hall1).
    pose proof (poll_pair_frame s q) as [Hself1 _].
    unfold turn in Htr1, Hself1.
    destruct (poll_pair g q s) as [[[]|e] s1]; simpl in *.
    + destruct (IH s1) as (Hself2 & added2 & Htr2 & Hall2); [congruence|].
      split; [assumption|].
      exists (added1 ++ added2)%list. rewrite Htr2, Htr1, app_assoc.
      split; [reflexivity|]. now apply Forall_app.
    + split; [congruence|]. now exists added1.
Qed.

Lemma run_cycle_added :
  exists added, trace (snd (run_cycle env g st0)) = (trace st0 ++ added)%list
                /\ Forall P added.
Proof.
  destruct (session_open env g st0) eqn:Hin.
  - rewrite (run_cycle_inside _ Hin). unfold polling, mbind, M_bind.
    destruct (for_each_added (PAIRS g) st0 eq_refl) as (_ & added & Htr & Hall).
    destruct (for_each (PAIRS g) (poll_pair g) st0) as [[[]|e] st1]; simpl in *.
    + exists (added ++ [Esleep 60])%list. unfold_M. simpl.
      rewrite Htr, app_assoc. split; [reflexivity|].
      apply Forall_app. split; [assumption|]. now repeat constructor.
    + now exists added.
  - rewrite (run_cycle_outside _ Hin). simpl. eexists. split; [reflexivity|].
    now repeat constructor.
Qed.

End Added.

Lemma at_cap_self (st : state) (st' : state) pair :
  self st' = self st -> at_cap g st pair -> at_cap g st' pair.
Proof. unfold at_cap. now intros ->. Qed.

(** When [pair] is at its cap. *)
Lemma turn_no_io (st : state) pair q :
  at_cap g st pair ->
  exists added, trace (turn g st q) = (trace st ++ added)%list
                /\ Forall (no_io_for pair) added.
Proof.
  intros Hcap. destruct (decide (q = pair)) as [->|Hne].
  - exists []. unfold turn. rewrite (poll_pair_at_cap _ _ Hcap). simpl.
    now rewrite app_nil_r.
  - destruct (poll_pair_frame st q) as (_ & added & Htr & Hall).
    exists added. split; [assumption|].
    eapply Forall_impl; [exact Hall|].
    intros [p tf n|p|m|l m|n]; simpl; intuition congruence.
Qed.

Lemma run_cycle_no_io (st : state) pair :
  at_cap g st pair ->
  exists added, trace (snd (run_cycle env g st)) = (trace st ++ added)%list
                /\ Forall (no_io_for pair) added.
Proof.
  intros Hcap. apply run_cycle_added; [|exact (fun _ => I)|exact (fun _ => I)].
  intros s q Hs. apply turn_no_io. now apply (at_cap_self st).
Qed.

(** No cycle calls the trader. *)
Lemma run_cycle_no_trader (st : state) :
  exists added, trace (snd (run_cycle env g st)) = (trace st ++ added)%list
                /\ Forall not_trader added.
Proof.
  apply run_cycle_added; [|exact (fun _ => I)|exact (fun _ => I)].
  intros s q _. destruct (poll_pair_frame s q) as (_ & added & Htr & Hall).
  exists added. split; [assumption|].
  eapply Forall_impl; [exact Hall|].
  intros [p tf n|p|m|l m|n]; simpl; tauto.
Qed.

(** ** The position-count table *)

Lemma run_cycle_self (st : state) : self (snd (run_cycle env g st)) = self st.
Proof.
  destruct (session_open env g st) eqn:Hin.
  - rewrite (run_cycle_inside _ Hin). unfold polling, mbind, M_bind.
    assert (Hfe : forall pairs (s : state),
               self (snd (for_each pairs (poll_pair g) s)) = self s).
    { induction pairs as [|q pairs IH]; intros s; simpl; [reflexivity|].
      unfold mbind, M_bind. pose proof (poll_pair_frame s q) as [Hs _].
      unfold turn in Hs. destruct (poll_pair g q s) as [[[]|e] s1]; simpl in *;
        [rewrite IH|]; assumption. }
    specialize (Hfe (PAIRS g) st).
    destruct (for_each (PAIRS g) (poll_pair g) st) as [[[]|e] st1]; simpl in *;
      assumption.
  - now rewrite (run_cycle_outside _ Hin).
Qed.

Lemma run_loop_self cycles (st : state) : self (snd (run_loop env g cycles st)) = self st.
Proof.
  revert st. induction cycles as [|n IH]; intros st; simpl; [reflexivity|].
  unfold mbind, M_bind. pose proof (run_cycle_self st) as Hs.
  destruct (run_cycle env g st) as [[[]|e] st1]; simpl in *;
    [rewrite IH|]; assumption.
Qed.

Lemma run_self cycles (st : state) : self (snd (run env g cycles st)) = self st.
Proof. unfold run. unfold_M. simpl. now rewrite run_loop_self. Qed.

Lemma init_table_lookup (pairs : list string) (d : gmap string Z) (pair : string) :
  foldl (fun d pair => <[pair := 0]> d) d pairs !! pair
  = if decide (pair ∈ pairs) then Some 0 else d !! pair.
Proof.
  revert d. induction pairs as [|q pairs IH]; intros d; simpl.
  - destruct (decide (pair ∈ [])) as [Hin|_]; [|reflexivity].
    now apply elem_of_nil in Hin.
  - rewrite IH. destruct (decide (pair ∈ pairs)) as [Hin|Hnin].
    + rewrite decide_True; [reflexivity|now right].
    + destruct (decide (q = pair)) as [->|Hne].
      * rewrite lookup_insert_eq. rewrite decide_True; [reflexivity|now left].
      * rewrite lookup_insert_ne by assumption.
        rewrite decide_False; [reflexivity|].
        rewrite elem_of_cons. intuition congruence.
Qed.

(** The table built by [__init__] has an entry for every configured pair. *)
Lemma init_table_covers dp tr str :
  table_covers (init g dp tr str : @ObotCore W DataFrame) (PAIRS g).
Proof.
  intros pair Hin. exists 0. simpl. rewrite init_table_lookup.
  now rewrite decide_True.
Qed.

Lemma reachable_self dp tr str (st : state) :
  reachable env g dp tr str st -> self st = init g dp tr str.
Proof.
  induction 1 as [w|st pair _ IH|st _ IH]; [reflexivity| |].
  - rewrite <- IH. apply poll_pair_frame.
  - rewrite <- IH. apply run_cycle_self.
Qed.

(** ** The claims about the orchestrator *)

(** C1 (per-instrument fault isolation). In a cycle inside the session
    window, with collaborators that raise errors, an error raised by the
    data fetch or by the signal generation of one instrument is caught in
    that instrument's turn: the cycle runs the turn of every configured
    instrument in order, sleeps the poll interval and returns normally; every
    instrument below its cap has its fetch attempted; and a turn whose fetch
    or signal call raises ends normally having emitted exactly one error
    record, naming the instrument, after the calls it made. *)
Theorem C1_instrument_failure_is_isolated (st : state) :
  session_open env g st = true ->
  raises_errors_only (self st) ->
  table_covers (self st) (PAIRS g) ->
  run_cycle env g st = (Ok tt, snd (time_sleep env 60 (foldl (turn g) st (PAIRS g))))
  /\ (forall pair, pair ∈ PAIRS g -> under_cap g st pair ->
      Efetch_candles pair "H1" 100 ∈ trace (snd (run_cycle env g st)))
  /\ (forall (s : state) pair, self s = self st -> under_cap g st pair ->
      (forall e w1,
          fetch_candles (data_provider (self st)) pair "H1" 100 (world s)
            = (Raise e, w1) ->
          poll_pair g pair s =
            (Ok tt, {| self := self s; world := w1;
                       trace := trace s ++
                         [Efetch_candles pair "H1" 100;
                          Elog ERROR ("Error processing " ++ pair ++ ": "
                                      ++ exn_str e)] |}))
      /\ (forall data w1 e w2,
          fetch_candles (data_provider (self st)) pair "H1" 100 (world s)
            = (Ok data, w1) ->
          generate_signal (strategy (self st)) pair data w1 = (Raise e, w2) ->
          poll_pair g pair s =
            (Ok tt, {| self := self s; world := w2;
                       trace := trace s ++
                         [Efetch_candles pair "H1" 100;
                          Egenerate_signal pair;
                          Elog ERROR ("Error processing " ++ pair ++ ": "
                                      ++ exn_str e)] |}))).
Proof.
  intros Hin Herr Hcov.
  assert (Hrun : run_cycle env g st
                 = (Ok tt, snd (time_sleep env 60 (foldl (turn g) st (PAIRS g))))).
  { rewrite (run_cycle_inside _ Hin). unfold polling, mbind, M_bind.
    rewrite (for_each_poll_pair st (PAIRS g) Herr Hcov). reflexivity. }
  split; [exact Hrun|]. split.
  - intros pair Hp Hcap. rewrite Hrun. unfold_M. simpl.
    apply elem_of_app. left. now apply foldl_turn_fetches.
  - intros s pair Hself Hcap. destruct Herr as [Hdp Hstr]. split.
    + intros e w1 Hf. apply poll_pair_fetch_raises.
      * now apply (under_cap_self st).
      * now rewrite Hself.
      * eapply Hdp, Hf.
    + intros data w1 e w2 Hf Hs. eapply poll_pair_signal_raises.
      * now apply (under_cap_self st).
      * rewrite Hself. exact Hf.
      * rewrite Hself. exact Hs.
      * eapply Hstr, Hs.
Qed.

(** C2 (the session window is inclusive on both bounds). For a window
    whose start is not after its end, such as 08:00 to 12:00: a cycle
    entered when the UTC time of day is strictly before the start or strictly
    after the end logs one informational record and sleeps 300 seconds, with
    no fetch and no signal call; a cycle entered exactly at the start or
    exactly at the end runs the loop over the instruments, then the 60
    second sleep. *)
Theorem C2_session_window_is_inclusive (st : state) :
  time_le (TRADING_SESSION_START g) (TRADING_SESSION_END g) = true ->
  let now := utcnow_time env (world st) in
  ((time_lt now (TRADING_SESSION_START g) = true
    \/ time_lt (TRADING_SESSION_END g) now = true) ->
   run_cycle env g st =
     (Ok tt, {| self := self st;
                world := sleep env 300 (world st);
                trace := trace st ++ [Elog INFO "Outside trading session – sleeping";
                                      Esleep 300] |}))
  /\ ((now = TRADING_SESSION_START g \/ now = TRADING_SESSION_END g) ->
      run_cycle env g st
      = (for_each (PAIRS g) (poll_pair g) ;; time_sleep env 60) st).
Proof.
  intros Hwin now. split.
  - intros Hout. apply run_cycle_outside. unfold session_open. fold now.
    destruct Hout as [H|H]; apply time_lt_not_le in H; rewrite H;
      [reflexivity|apply andb_false_r].
  - intros Hat. apply run_cycle_inside. unfold session_open. fold now.
    destruct Hat as [-> | ->]; rewrite time_le_refl, Hwin; reflexivity.
Qed.

(** C3 (admission control comes before any I/O). If the open-position
    count of an instrument is at or above the cap, its turn does nothing at
    all (same world, same trace), and whatever the cycle adds to the trace
    contains no fetch and no signal call for that instrument. *)
Theorem C3_at_cap_no_fetch_no_signal (st : state) (pair : string) (count : Z) :
  active_positions (self st) !! pair = Some count ->
  MAX_CONCURRENT_TRADES_PER_PAIR g <= count ->
  poll_pair g pair st = (Ok tt, st)
  /\ exists added,
      trace (snd (run_cycle env g st)) = (trace st ++ added)%list
      /\ forall tf n, (Efetch_candles pair tf n ∉ added)
                      /\ (Egenerate_signal pair ∉ added).
Proof.
  intros Hc Hle. assert (Hcap : at_cap g st pair) by (exists count; now split).
  split; [now apply poll_pair_at_cap|].
  destruct (run_cycle_no_io st pair Hcap) as (added & Htr & Hall).
  exists added. split; [assumption|].
  rewrite Forall_forall in Hall.
  intros tf n. split; intros Hin; apply Hall in Hin; simpl in Hin; congruence.
Qed.

(** C8 (a decision with signal value 0 is not acted upon). If, for an
    instrument below its cap, the fetch succeeds and the signal generator
    returns a mapping whose "signal" entry is 0, the turn ends normally and
    all it has done is the fetch and the signal call: no record of an
    actionable signal, and the world is the one the signal generator left.
    No call goes to the execution port: nothing a cycle adds to the trace is
    a call of the trader. *)
Theorem C8_signal_zero_is_not_actionable (st : state) pair data w1 signal w2 :
  under_cap g st pair ->
  fetch_candles (data_provider (self st)) pair "H1" 100 (world st) = (Ok data, w1) ->
  generate_signal (strategy (self st)) pair data w1 = (Ok (ODict signal), w2) ->
  signal !! "signal" = Some (VInt 0) ->
  poll_pair g pair st =
    (Ok tt, {| self := self st; world := w2;
               trace := trace st ++ [Efetch_candles pair "H1" 100;
                                     Egenerate_signal pair] |})
  /\ exists added,
      trace (snd (run_cycle env g st)) = (trace st ++ added)%list
      /\ forall method, Etrader method ∉ added.
Proof.
  intros Hcap Hf Hs Hv. split.
  - eapply poll_pair_not_actionable; eauto. now rewrite Hv.
  - destruct (run_cycle_no_trader st) as (added & Htr & Hall).
    exists added. split; [assumption|].
    rewrite Forall_forall in Hall. intros method Hin. exact (Hall _ Hin).
Qed.

(** C9 (the position-count table). [__init__] maps every configured
    instrument to 0 and holds nothing else but zeros; a turn, a cycle and
    any number of cycles of [run] leave the object, and so the table,
    unchanged; consequently, with a cap that is not negative, in every
    reachable state the count of every instrument is at most the cap. *)
Theorem C9_table_is_zero_and_never_modified
  (dp : @DataProvider W DataFrame) (tr : @Trader W) (str : @Strategy W DataFrame) :
  0 <= MAX_CONCURRENT_TRADES_PER_PAIR g ->
  (forall pair, pair ∈ PAIRS g ->
     active_positions (init g dp tr str) !! pair = Some 0)
  /\ (forall (st : state) pair, self (snd (poll_pair g pair st)) = self st)
  /\ (forall st : state, self (snd (run_cycle env g st)) = self st)
  /\ (forall (st : state) cycles, self (snd (run env g cycles st)) = self st)
  /\ (forall st : state, reachable env g dp tr str st ->
        forall pair count, active_positions (self st) !! pair = Some count ->
          count = 0 /\ count <= MAX_CONCURRENT_TRADES_PER_PAIR g).
Proof.
  intros Hmax. split; [|split; [|split; [|split]]].
  - intros pair Hin. simpl. rewrite init_table_lookup.
    now rewrite decide_True.
  - intros st pair. apply poll_pair_frame.
  - apply run_cycle_self.
  - intros st cycles. apply run_self.
  - intros st Hreach pair count Hc.
    rewrite (reachable_self _ _ _ _ Hreach) in Hc. simpl in Hc.
    rewrite init_table_lookup in Hc. destruct (decide (pair ∈ PAIRS g)).
    + injection Hc as <-. split; [reflexivity|assumption].
    + rewrite lookup_empty in Hc. discriminate.
Qed.

(** C10 (a mapping without a "signal" entry). If, for an instrument below
    its cap, the fetch succeeds and the signal generator returns a mapping
    that has no "signal" key, the turn ends normally having made the fetch
    and the signal call only: no actionable-signal record, no error record. *)
Theorem C10_missing_signal_key_is_no_signal (st : state) pair data w1 signal w2 :
  under_cap g st pair ->
  fetch_candles (data_provider (self st)) pair "H1" 100 (world st) = (Ok data, w1) ->
  generate_signal (strategy (self st)) pair data w1 = (Ok (ODict signal), w2) ->
  signal !! "signal" = None ->
  poll_pair g pair st =
    (Ok tt, {| self := self st; world := w2;
               trace := trace st ++ [Efetch_candles pair "H1" 100;
                                     Egenerate_signal pair] |}).
Proof.
  intros Hcap Hf Hs Hv. eapply poll_pair_not_actionable; eauto.
  now rewrite Hv.
Qed.

(** ** Further properties of the orchestrator *)

Ltac poll_pair_cases st pair :=
  unfold turn, poll_pair; unfold_M; simpl;
  destruct (active_positions (self st) !! pair) as [count|] eqn:Hcount; simpl;
  [destruct (MAX_CONCURRENT_TRADES_PER_PAIR g <=? count) eqn:Hcap; simpl;
   [|destruct (fetch_candles _ pair "H1" 100 (world st)) as [[data|e] w1] eqn:Hfetch;
     simpl;
     [destruct (generate_signal _ pair data w1) as [[signal|e] w2] eqn:Hgen; simpl;
      [destruct (py_get signal "signal" (VInt 0)) as [v|e] eqn:Hget; simpl;
       [destruct (py_ne_0 v) eqn:Hne; simpl;
        [destruct (py_getitem signal "signal") as [x|e] eqn:Hitem; simpl;
         [destruct (py_gt_0 x) as [up|e] eqn:Hgt; simpl|]|]|]|]|]]|].

(** *** One turn, case by case *)

Lemma poll_pair_shape (st : state) pair :
  exists added,
    trace (turn g st pair) = (trace st ++ added)%list
    /\ turn_shape pair (fst (poll_pair g pair st)) added.
Proof.
  poll_pair_cases st pair.
  all: try (destruct (is_Exception e) eqn:He; simpl).
  all: try (exists []; rewrite app_nil_r; split; [reflexivity|constructor]; fail).
  all: eexists; rewrite <- ?app_assoc; (split; [reflexivity|]).
  all: try (constructor; assumption).
  all: try (apply py_get_error in Hget; congruence).
  all: try (apply py_getitem_error in Hitem; congruence).
  all: apply py_gt_0_error in Hgt; congruence.
Qed.

Lemma below_cap_spec (st : state) pair :
  is_Some (active_positions (self st) !! pair) ->
  if below_cap g (self st) pair then under_cap g st pair else at_cap g st pair.
Proof.
  intros [count Hc]. unfold below_cap, under_cap, at_cap. rewrite Hc.
  destruct (count <? MAX_CONCURRENT_TRADES_PER_PAIR g) eqn:Hlt; exists count;
    (split; [reflexivity|]); [apply Z.ltb_lt in Hlt|apply Z.ltb_ge in Hlt]; lia.
Qed.

Lemma under_cap_below (st : state) pair :
  under_cap g st pair -> below_cap g (self st) pair = true.
Proof.
  intros (count & Hc & Hlt). unfold below_cap. rewrite Hc. now apply Z.ltb_lt.
Qed.

Lemma poll_pair_no_entry (st : state) pair :
  active_positions (self st) !! pair = None ->
  poll_pair g pair st = (Raise (KeyError pair), st).
Proof. intros Hc. unfold poll_pair. unfold_M. simpl. now rewrite Hc. Qed.

Lemma poll_pair_actionable (st : state) pair data w1 signal w2 v up :
  under_cap g st pair ->
  fetch_candles (data_provider (self st)) pair "H1" 100 (world st) = (Ok data, w1) ->
  generate_signal (strategy (self st)) pair data w1 = (Ok (ODict signal), w2) ->
  signal !! "signal" = Some v ->
  py_ne_0 v = true ->
  py_gt_0 v = Ok up ->
  poll_pair g pair st =
    (Ok tt, {| self := self st; world := w2;
               trace := trace st ++ [Efetch_candles pair "H1" 100;
                                     Egenerate_signal pair;
                                     Elog INFO (pair ++ " | SIGNAL: "
                                                ++ (if up then "BUY" else "SELL"))] |}).
Proof.
  intros (count & Hc & Hlt) Hf Hs Hv Hne Hgt. unfold poll_pair. unfold_M. simpl.
  rewrite Hc. simpl. apply Z.leb_gt in Hlt. rewrite Hlt, Hf. simpl.
  rewrite Hs. simpl. rewrite Hv. simpl. rewrite Hne. simpl. rewrite Hgt. simpl.
  now rewrite <- !app_assoc.
Qed.

Lemma poll_pair_decision_raises (st : state) pair data w1 o w2 e :
  under_cap g st pair ->
  fetch_candles (data_provider (self st)) pair "H1" 100 (world st) = (Ok data, w1) ->
  generate_signal (strategy (self st)) pair data w1 = (Ok o, w2) ->
  (py_get o "signal" (VInt 0) = Raise e
   \/ exists v, py_get o "signal" (VInt 0) = Ok v /\ py_ne_0 v = true
                /\ (py_getitem o "signal" = Raise e
                    \/ exists x, py_getitem o "signal" = Ok x /\ py_gt_0 x = Raise e)) ->
  poll_pair g pair st =
    (Ok tt, {| self := self st; world := w2;
               trace := trace st ++ [Efetch_candles pair "H1" 100;
                                     Egenerate_signal pair;
                                     Elog ERROR ("Error processing " ++ pair ++ ": "
                                                 ++ exn_str e)] |}).
Proof.
  intros (count & Hc & Hlt) Hf Hs Hbad. unfold poll_pair. unfold_M. simpl.
  rewrite Hc. simpl. apply Z.leb_gt in Hlt. rewrite Hlt, Hf. simpl.
  rewrite Hs. simpl.
  destruct Hbad as [Hg | (v & Hg & Hne & [Hi | (x & Hi & Hgt)])]; rewrite Hg; simpl.
  - rewrite (py_get_error _ _ _ _ Hg). simpl. now rewrite <- !app_assoc.
  - rewrite Hne. simpl. rewrite Hi. simpl.
    rewrite (py_getitem_error _ _ _ Hi). simpl. now rewrite <- !app_assoc.
  - rewrite Hne. simpl. rewrite Hi. simpl. rewrite Hgt. simpl.
    rewrite (py_gt_0_error _ _ Hgt). simpl. now rewrite <- !app_assoc.
Qed.

(** X1 (an actionable decision and its direction). If, for an instrument
    below its cap, the fetch succeeds and the signal generator returns a
    mapping whose "signal" entry is a number other than zero (an int, a
    float or a bool), the turn ends normally having made the fetch and the
    signal call and logged exactly one informational record
    "<pair> | SIGNAL: BUY" when the value is greater than zero and
    "<pair> | SIGNAL: SELL" otherwise; the world is the one the signal
    generator left and the object is unchanged. A float NaN is such a value:
    [nan != 0] holds and [nan > 0] does not, so it is logged as a SELL. *)
Theorem actionable_signal_is_logged_with_its_direction
  (st : state) pair data w1 signal w2 v up :
  under_cap g st pair ->
  fetch_candles (data_provider (self st)) pair "H1" 100 (world st) = (Ok data, w1) ->
  generate_signal (strategy (self st)) pair data w1 = (Ok (ODict signal), w2) ->
  signal !! "signal" = Some v ->
  py_ne_0 v = true ->
  py_gt_0 v = Ok up ->
  poll_pair g pair st =
    (Ok tt, {| self := self st; world := w2;
               trace := trace st ++ [Efetch_candles pair "H1" 100;
                                     Egenerate_signal pair;
                                     Elog INFO (pair ++ " | SIGNAL: "
                                                ++ (if up then "BUY" else "SELL"))] |})
  /\ (forall n, v = VInt n -> n <> 0 /\ up = (0 <? n))
  /\ (forall x, v = VFloat x -> eq0 x = false /\ up = gt0 x)
  /\ (v = VFloat S754_nan -> up = false).
Proof.
  intros Hcap Hf Hs Hv Hne Hgt. split; [|split; [|split]].
  - eapply poll_pair_actionable; eauto.
  - intros n ->. simpl in Hne, Hgt. injection Hgt as <-.
    split; [|reflexivity]. intros ->. discriminate.
  - intros x ->. simpl in Hne, Hgt. injection Hgt as <-.
    split; [|reflexivity]. now destruct (eq0 x).
  - intros ->. simpl in Hgt. now injection Hgt as <-.
Qed.

(** X2 (a malformed decision). If, for an instrument below its cap, the
    fetch succeeds and the signal generator returns something that is not a
    mapping (for instance [None]), or a mapping whose "signal" entry is
    [None] or a string, the core's own code raises inside the [try] block
    (AttributeError from [.get], TypeError from the comparison with 0); the
    error is caught like a collaborator's: the turn ends normally with the
    fetch, the signal call and exactly one error record naming the
    instrument. *)
Theorem malformed_decision_is_logged_and_skipped (st : state) pair data w1 o w2 :
  under_cap g st pair ->
  fetch_candles (data_provider (self st)) pair "H1" 100 (world st) = (Ok data, w1) ->
  generate_signal (strategy (self st)) pair data w1 = (Ok o, w2) ->
  match o with
  | OVal _ => True
  | ODict d => d !! "signal" = Some VNone \/ exists s, d !! "signal" = Some (VStr s)
  end ->
  exists e,
    exn_class e = match o with OVal _ => "AttributeError" | ODict _ => "TypeError" end
    /\ poll_pair g pair st =
       (Ok tt, {| self := self st; world := w2;
                  trace := trace st ++ [Efetch_candles pair "H1" 100;
                                        Egenerate_signal pair;
                                        Elog ERROR ("Error processing " ++ pair ++ ": "
                                                    ++ exn_str e)] |}).
Proof.
  intros Hcap Hf Hs Hbad. destruct o as [d|v].
  - assert (Hv : exists v, d !! "signal" = Some v /\ py_ne_0 v = true
                           /\ exists e, exn_class e = "TypeError" /\ py_gt_0 v = Raise e).
    { destruct Hbad as [H|[s H]]; eexists; (split; [exact H|]);
        (split; [reflexivity|]); eexists; (split; [|reflexivity]); reflexivity. }
    destruct Hv as (v & Hv & Hne & e & Hcls & Hgt).
    exists e. split; [assumption|].
    eapply poll_pair_decision_raises; eauto.
    right. exists v. simpl. rewrite Hv. simpl.
    split; [reflexivity|]. split; [assumption|]. right. now exists v.
  - eexists. split; [|eapply poll_pair_decision_raises; eauto; left; reflexivity].
    reflexivity.
Qed.

(** X3 (the shapes of a turn). Whatever the collaborators and the table,
    a turn adds to the trace one of eight sequences, tied to its outcome:
    nothing (skipped at the cap, or KeyError for a pair without an entry);
    the fetch and the signal call; these two and one informational BUY or
    SELL record; the fetch, or the fetch and the signal call, followed by one
    error record for a caught error; or the fetch, or the fetch and the signal
    call, alone when an exception that is not an [Exception] passes through.
    So a turn makes at most one fetch, at most one signal call and only after
    the fetch, and logs at most one record. *)
Theorem turn_has_one_of_eight_shapes (st : state) pair :
  exists added,
    trace (turn g st pair) = (trace st ++ added)%list
    /\ turn_shape pair (fst (poll_pair g pair st)) added
    /\ (length (fetched_pairs added) <= 1)%nat
    /\ (length (log_records added) <= 1)%nat.
Proof.
  destruct (poll_pair_shape st pair) as (added & Htr & Hshape).
  exists added. split; [assumption|]. split; [assumption|].
  destruct Hshape; simpl; lia.
Qed.

(** *** Exceptions that leave a turn *)

Lemma for_each_app (l1 l2 : list string) (body : string -> M unit) (st : state) :
  for_each (l1 ++ l2)%list body st
  = match for_each l1 body st with
    | (Ok _, s1) => for_each l2 body s1
    | (Raise e, s1) => (Raise e, s1)
    end.
Proof.
  revert st. induction l1 as [|q l1 IH]; intros st; simpl; [reflexivity|].
  unfold mbind, M_bind. destruct (body q st) as [[[]|e] s]; [apply IH|reflexivity].
Qed.

Lemma run_cycle_raises (st s1 s2 : state) l1 pair l2 e :
  session_open env g st = true ->
  PAIRS g = (l1 ++ pair :: l2)%list ->
  for_each l1 (poll_pair g) st = (Ok tt, s1) ->
  poll_pair g pair s1 = (Raise e, s2) ->
  run_cycle env g st = (Raise e, s2).
Proof.
  intros Hin HP H1 H2. rewrite (run_cycle_inside _ Hin).
  unfold polling, mbind, M_bind. rewrite HP, for_each_app, H1. simpl.
  unfold mbind, M_bind. now rewrite H2.
Qed.

Lemma run_loop_raises (st s2 : state) e n :
  run_cycle env g st = (Raise e, s2) -> run_loop env g (S n) st = (Raise e, s2).
Proof. intros H. simpl. unfold mbind, M_bind. now rewrite H. Qed.

(** X4 (what [except Exception] does not catch). An exception that does
    not derive from [Exception] (KeyboardInterrupt, SystemExit), raised by
    the fetch or by the signal generator of an instrument below its cap,
    leaves the turn: no error record is logged, and the state is the one
    the raising call left. *)
Theorem turn_does_not_catch_interrupts (st : state) pair e :
  under_cap g st pair ->
  is_Exception e = false ->
  (forall w1,
      fetch_candles (data_provider (self st)) pair "H1" 100 (world st) = (Raise e, w1) ->
      poll_pair g pair st =
        (Raise e, {| self := self st; world := w1;
                     trace := trace st ++ [Efetch_candles pair "H1" 100] |}))
  /\ (forall data w1 w2,
      fetch_candles (data_provider (self st)) pair "H1" 100 (world st) = (Ok data, w1) ->
      generate_signal (strategy (self st)) pair data w1 = (Raise e, w2) ->
      poll_pair g pair st =
        (Raise e, {| self := self st; world := w2;
                     trace := trace st ++ [Efetch_candles pair "H1" 100;
                                           Egenerate_signal pair] |})).
Proof.
  intros (count & Hc & Hlt) He. apply Z.leb_gt in Hlt. split.
  - intros w1 Hf. unfold poll_pair. unfold_M. simpl.
    rewrite Hc. simpl. rewrite Hlt, Hf. simpl. now rewrite He.
  - intros data w1 w2 Hf Hs. unfold poll_pair. unfold_M. simpl.
    rewrite Hc. simpl. rewrite Hlt, Hf. simpl. rewrite Hs. simpl. rewrite He.
    now rewrite <- !app_assoc.
Qed.

(** X5 (an exception that leaves a turn ends the cycle and the loop). In
    a cycle inside the session window, if the turns of the instruments
    before [pair] end normally and the turn of [pair] raises, then
    [run_cycle] raises the same exception in the state that turn left: the
    instruments after [pair] are not polled and the cycle does not sleep;
    and [run], however many cycles it is followed for, ends there with that
    exception. *)
Theorem raise_in_a_turn_ends_the_cycle_and_the_loop (st s1 s2 : state) l1 pair l2 e :
  session_open env g (started st) = true ->
  PAIRS g = (l1 ++ pair :: l2)%list ->
  for_each l1 (poll_pair g) (started st) = (Ok tt, s1) ->
  poll_pair g pair s1 = (Raise e, s2) ->
  run_cycle env g (started st) = (Raise e, s2)
  /\ forall n, run env g (S n) st = (Raise e, s2).
Proof.
  intros Hin HP H1 H2.
  pose proof (run_cycle_raises _ _ _ _ _ _ _ Hin HP H1 H2) as Hc.
  split; [exact Hc|]. intros n. unfold run.
  change ((logging_info "Obot Core Framework Started – Broker-Agnostic Mode" ;;
           run_loop env g (S n)) st)
    with (run_loop env g (S n) (started st)).
  now apply run_loop_raises.
Qed.

(** X6 (an instrument without an entry in the table). The lookup
    [self.active_positions[pair]] is outside the [try] block: for a pair of
    [PAIRS] that has no entry (the table is built once, by [__init__], from
    the pairs configured then), the turn raises KeyError and leaves the state
    untouched, and a cycle inside the session window, whose collaborators
    raise errors only, ends with that KeyError right after the turns of the
    pairs before it, without sleeping. *)
Theorem pair_without_entry_raises_KeyError (st : state) l1 pair l2 :
  session_open env g st = true ->
  raises_errors_only (self st) ->
  PAIRS g = (l1 ++ pair :: l2)%list ->
  table_covers (self st) l1 ->
  active_positions (self st) !! pair = None ->
  poll_pair g pair st = (Raise (KeyError pair), st)
  /\ run_cycle env g st = (Raise (KeyError pair), foldl (turn g) st l1).
Proof.
  intros Hin Herr HP Hcov Hnone. split; [now apply poll_pair_no_entry|].
  eapply run_cycle_raises; eauto.
  - now apply for_each_poll_pair.
  - apply poll_pair_no_entry. now rewrite foldl_turn_self.
Qed.

(** *** Sleeps *)

Lemma sleeps_app l1 l2 : sleeps (l1 ++ l2)%list = (sleeps l1 ++ sleeps l2)%list.
Proof. apply omap_app. Qed.

Lemma fetched_pairs_app l1 l2 :
  fetched_pairs (l1 ++ l2)%list = (fetched_pairs l1 ++ fetched_pairs l2)%list.
Proof. apply omap_app. Qed.

Lemma turn_events_no_sleep pair added :
  Forall (turn_event pair) added -> sleeps added = [].
Proof.
  induction 1 as [|ev l Hev _ IH]; [reflexivity|].
  destruct ev; simpl in *; try assumption; contradiction.
Qed.

Lemma for_each_no_sleep pairs : forall s : state,
  exists added,
    trace (snd (for_each pairs (poll_pair g) s)) = (trace s ++ added)%list
    /\ sleeps added = [].
Proof.
  induction pairs as [|q pairs IH]; intros s; simpl.
  - exists []. now rewrite app_nil_r.
  - unfold mbind, M_bind. destruct (poll_pair_frame s q) as (_ & a1 & Htr & Hall).
    unfold turn in Htr. destruct (poll_pair g q s) as [[[]|e] s1]; simpl in *.
    + destruct (IH s1) as (a2 & Htr2 & Hs2). exists (a1 ++ a2)%list.
      rewrite Htr2, Htr, app_assoc. split; [reflexivity|].
      now rewrite sleeps_app, Hs2, (turn_events_no_sleep _ _ Hall).
    + exists a1. split; [assumption|]. eapply turn_events_no_sleep; eauto.
Qed.

Lemma run_cycle_sleeps (st : state) :
  exists added,
    trace (snd (run_cycle env g st)) = (trace st ++ added)%list
    /\ match fst (run_cycle env g st) with
       | Ok _ =>
           exists before,
             added = (before ++ [Esleep (if session_open env g st then 60 else 300)])%list
             /\ sleeps before = []
       | Raise _ => session_open env g st = true /\ sleeps added = []
       end.
Proof.
  destruct (session_open env g st) eqn:Hin.
  - rewrite (run_cycle_inside _ Hin). unfold polling, mbind, M_bind.
    destruct (for_each_no_sleep (PAIRS g) st) as (added & Htr & Hs).
    destruct (for_each (PAIRS g) (poll_pair g) st) as [[[]|e] st1]; simpl in *.
    + exists (added ++ [Esleep 60])%list. rewrite Htr, app_assoc.
      split; [reflexivity|]. now exists added.
    + exists added. now split.
  - rewrite (run_cycle_outside _ Hin). simpl.
    exists [Elog INFO "Outside trading session – sleeping"; Esleep 300].
    split; [reflexivity|].
    now exists [Elog INFO "Outside trading session – sleeping"].
Qed.


(** *** The base classes as collaborators *)

Lemma for_each_base_provider pairs : forall s : state,
  data_provider (self s) = DataProvider_base ->
  table_covers (self s) pairs ->
  for_each pairs (poll_pair g) s =
    (Ok tt,
     {| self := self s; world := world s;
        trace := trace s ++
          flat_map (fun pair =>
                      if below_cap g (self s) pair
                      then [Efetch_candles pair "H1" 100;
                            Elog ERROR ("Error processing " ++ pair ++ ": ")]
                      else []) pairs |}).
Proof.
  induction pairs as [|q pairs IH]; intros s Hdp Hcov; simpl.
  - unfold mret, M_ret. now rewrite app_nil_r, state_eta.
  - unfold mbind, M_bind.
    assert (Hq : is_Some (active_positions (self s) !! q)) by (apply Hcov; left).
    assert (Hcov' : table_covers (self s) pairs)
      by (intros p Hp; apply Hcov; now right).
    pose proof (below_cap_spec s q Hq) as Hb.
    destruct (below_cap g (self s) q).
    + rewrite (poll_pair_fetch_raises s q NotImplementedError (world s) Hb);
        [|now rewrite Hdp|reflexivity].
      rewrite IH by assumption. simpl. now rewrite <- app_assoc.
    + rewrite (poll_pair_at_cap s q Hb). now rewrite IH.
Qed.

(** X8 (the base data provider). With the module's own [DataProvider]
    (whose [fetch_candles] raises NotImplementedError) and a table that
    covers the configured pairs, a cycle inside the session window returns
    normally; for every pair below its cap, in configuration order, it has
    attempted the fetch and logged the error record
    "Error processing <pair>: " (the exception has an empty message); the
    strategy has not been called, the world has only been slept in, and the
    cycle ends with the 60 second sleep. *)
Theorem base_data_provider_cycle (st : state) :
  session_open env g st = true ->
  data_provider (self st) = DataProvider_base ->
  table_covers (self st) (PAIRS g) ->
  run_cycle env g st =
    (Ok tt,
     {| self := self st;
        world := sleep env 60 (world st);
        trace := trace st ++
          flat_map (fun pair =>
                      if below_cap g (self st) pair
                      then [Efetch_candles pair "H1" 100;
                            Elog ERROR ("Error processing " ++ pair ++ ": ")]
                      else []) (PAIRS g)
          ++ [Esleep 60] |}).
Proof.
  intros Hin Hdp Hcov. rewrite (run_cycle_inside _ Hin).
  unfold polling, mbind, M_bind. rewrite for_each_base_provider by assumption.
  unfold_M. simpl. now rewrite <- app_assoc.
Qed.

Lemma for_each_base_strategy (me : @ObotCore W DataFrame) pairs : forall s : state,
  self s = me ->
  strategy me = Strategy_base ->
  (forall pair tf n w, exists data w',
      fetch_candles (data_provider me) pair tf n w = (Ok data, w')) ->
  table_covers me pairs ->
  fst (for_each pairs (poll_pair g) s) = Ok tt
  /\ self (snd (for_each pairs (poll_pair g) s)) = me
  /\ trace (snd (for_each pairs (poll_pair g) s)) =
     (trace s ++
      flat_map (fun pair =>
                  if below_cap g me pair
                  then [Efetch_candles pair "H1" 100; Egenerate_signal pair]
                  else []) pairs)%list.
Proof.
  induction pairs as [|q pairs IH]; intros s Hme Hstr Hdp Hcov; simpl.
  - now rewrite app_nil_r.
  - unfold mbind, M_bind.
    assert (Hq : is_Some (active_positions (self s) !! q))
      by (rewrite Hme; apply Hcov; left).
    assert (Hcov' : table_covers me pairs)
      by (intros p Hp; apply Hcov; now right).
    pose proof (below_cap_spec s q Hq) as Hb. rewrite Hme in Hb.
    destruct (below_cap g me q).
    + destruct (Hdp q "H1" 100 (world s)) as (data & w1 & Hf).
      rewrite (poll_pair_not_actionable s q data w1 {[ "signal" := VInt 0 ]} w1 Hb);
        [|now rewrite Hme|now rewrite Hme, Hstr|reflexivity].
      destruct (IH {| self := self s; world := w1;
                      trace := trace s ++ [Efetch_candles q "H1" 100;
                                           Egenerate_signal q] |})
        as (Hok & Hself & Htr); [assumption ..|].
      split; [assumption|]. split; [assumption|].
      rewrite Htr. simpl. now rewrite <- app_assoc.
    + rewrite (poll_pair_at_cap s q Hb). now apply IH.
Qed.

(** X9 (the base strategy). With the module's own [Strategy] (whose
    [generate_signal] returns [{"signal": 0}]) and a data provider that
    always answers, a cycle inside the session window returns normally and
    adds to the trace, for every pair below its cap in configuration order,
    the fetch and the signal call, then the 60 second sleep: no record is
    logged, neither a signal nor an error. *)
Theorem base_strategy_cycle (st : state) :
  session_open env g st = true ->
  strategy (self st) = Strategy_base ->
  (forall pair tf n w, exists data w',
      fetch_candles (data_provider (self st)) pair tf n w = (Ok data, w')) ->
  table_covers (self st) (PAIRS g) ->
  fst (run_cycle env g st) = Ok tt
  /\ trace (snd (run_cycle env g st)) =
     (trace st ++
      flat_map (fun pair =>
                  if below_cap g (self st) pair
                  then [Efetch_candles pair "H1" 100; Egenerate_signal pair]
                  else []) (PAIRS g)
      ++ [Esleep 60])%list.
Proof.
  intros Hin Hstr Hdp Hcov. rewrite (run_cycle_inside _ Hin).
  unfold polling, mbind, M_bind.
  destruct (for_each_base_strategy (self st) (PAIRS g) st eq_refl Hstr Hdp Hcov)
    as (Hok & _ & Htr).
  destruct (for_each (PAIRS g) (poll_pair g) st) as [[[]|e] st1]; simpl in *;
    [|discriminate].
  unfold_M. simpl. split; [reflexivity|]. now rewrite Htr, <- app_assoc.
Qed.

(** *** The order of the fetches *)

Lemma turn_fetched (st : state) pair :
  fetched_pairs (trace (turn g st pair))
  = (fetched_pairs (trace st)
     ++ (if below_cap g (self st) pair then [pair] else []))%list.
Proof.
  unfold below_cap. poll_pair_cases st pair.
  all: try (destruct (is_Exception e); simpl).
  all: try (apply Z.leb_le in Hcap;
            assert (Hlt : (count <? MAX_CONCURRENT_TRADES_PER_PAIR g) = false)
              by (apply Z.ltb_ge; lia));
       try (apply Z.leb_gt in Hcap;
            assert (Hlt : (count <? MAX_CONCURRENT_TRADES_PER_PAIR g) = true)
              by (apply Z.ltb_lt; lia));
       try rewrite Hlt.
  all: rewrite <- ?app_assoc, ?fetched_pairs_app, ?app_nil_r; reflexivity.
Qed.

Lemma for_each_fetched pairs : forall s : state,
  exists done,
    fetched_pairs (trace (snd (for_each pairs (poll_pair g) s)))
    = (fetched_pairs (trace s) ++ done)%list
    /\ done `prefix_of` List.filter (below_cap g (self s)) pairs
    /\ (fst (for_each pairs (poll_pair g) s) = Ok tt ->
        done = List.filter (below_cap g (self s)) pairs).
Proof.
  induction pairs as [|q pairs IH]; intros s; simpl.
  - exists []. now rewrite app_nil_r.
  - unfold mbind, M_bind. pose proof (turn_fetched s q) as Hf.
    pose proof (poll_pair_frame s q) as [Hself _]. unfold turn in Hf, Hself.
    destruct (poll_pair g q s) as [[[]|e] s1]; simpl in *.
    + destruct (IH s1) as (done & Htr & Hpre & Hall). rewrite Hself in Hpre, Hall.
      exists ((if below_cap g (self s) q then [q] else []) ++ done)%list.
      rewrite Htr, Hf, <- app_assoc. split; [reflexivity|].
      destruct (below_cap g (self s) q); simpl.
      * split; [now apply prefix_cons|]. intros Hok. now rewrite Hall.
      * split; assumption.
    + exists (if below_cap g (self s) q then [q] else []).
      split; [assumption|]. split; [|discriminate].
      destruct (below_cap g (self s) q); [|apply prefix_nil].
      apply prefix_cons, prefix_nil.
Qed.

(** X10 (instruments are polled in configuration order). Whatever the
    collaborators, the pairs whose candles a cycle asks for are, in order, a
    prefix of the configured pairs that are below their cap; when the cycle
    is entered inside the session window and returns normally they are all
    of them, each exactly as often as it is listed; outside the window there
    is none. *)
Theorem fetches_follow_the_configured_order (st : state) :
  exists done,
    fetched_pairs (trace (snd (run_cycle env g st)))
    = (fetched_pairs (trace st) ++ done)%list
    /\ done `prefix_of` List.filter (below_cap g (self st)) (PAIRS g)
    /\ (session_open env g st = true -> fst (run_cycle env g st) = Ok tt ->
        done = List.filter (below_cap g (self st)) (PAIRS g))
    /\ (session_open env g st = false -> done = []).
Proof.
  destruct (session_open env g st) eqn:Hin.
  - rewrite (run_cycle_inside _ Hin). unfold polling, mbind, M_bind.
    destruct (for_each_fetched (PAIRS g) st) as (done & Htr & Hpre & Hall).
    exists done.
    destruct (for_each (PAIRS g) (poll_pair g) st) as [[[]|e] st1]; simpl in *.
    + unfold_M. simpl. rewrite fetched_pairs_app, Htr. simpl. rewrite app_nil_r.
      split; [reflexivity|]. split; [assumption|]. split; [|discriminate].
      intros _ _. now apply Hall.
    + split; [assumption|]. split; [assumption|]. split; discriminate.
  - rewrite (run_cycle_outside _ Hin). exists []. simpl.
    rewrite fetched_pairs_app. simpl.
    split; [reflexivity|]. split; [apply prefix_nil|]. split; [discriminate|reflexivity].
Qed.

(** *** The session window *)

Lemma time_le_lex a b :
  time_le a b = true <->
  hour a < hour b
  \/ (hour a = hour b
      /\ (minute a < minute b
          \/ (minute a = minute b
              /\ (second a < second b
                  \/ (second a = second b /\ microsecond a <= microsecond b))))).
Proof.
  unfold time_le, time_cmp.
  destruct (Z.compare_spec (hour a) (hour b));
    destruct (Z.compare_spec (minute a) (minute b));
    destruct (Z.compare_spec (second a) (second b));
    destruct (Z.compare_spec (microsecond a) (microsecond b));
    split; intros Hx; try reflexivity; try discriminate; lia.
Qed.

Lemma time_le_trans a b c :
  time_le a b = true -> time_le b c = true -> time_le a c = true.
Proof. rewrite !time_le_lex. lia. Qed.

Lemma inverted_window_closed (st : state) :
  time_lt (TRADING_SESSION_END g) (TRADING_SESSION_START g) = true ->
  session_open env g st = false.
Proof.
  intros Hinv. apply time_lt_not_le in Hinv. unfold session_open.
  destruct (time_le (TRADING_SESSION_START g) (utcnow_time env (world st))) eqn:H1;
    [|reflexivity].
  destruct (time_le (utcnow_time env (world st)) (TRADING_SESSION_END g)) eqn:H2;
    [|reflexivity].
  rewrite (time_le_trans _ _ _ H1 H2) in Hinv. discriminate.
Qed.

(** X11 (a window that ends before it starts). The session test is
    [START <= now <= END] on times of day, so a window whose end is earlier
    than its start (one meant to run over midnight, say 22:00 to 02:00) is
    never open: whatever the clock reads, every cycle logs the
    outside-session record and sleeps 300 seconds, and following [run_cycle]
    any number of times is that many idle rounds, without a single fetch. *)
Theorem window_over_midnight_is_never_open (st : state) :
  time_lt (TRADING_SESSION_END g) (TRADING_SESSION_START g) = true ->
  session_open env g st = false
  /\ run_cycle env g st = (Ok tt, idle env st)
  /\ forall n, run_loop env g n st = (Ok tt, Nat.iter n (idle env) st)
               /\ fetched_pairs (trace (Nat.iter n (idle env) st))
                  = fetched_pairs (trace st).
Proof.
  intros Hinv. split; [now apply inverted_window_closed|].
  split; [apply run_cycle_outside; now apply inverted_window_closed|].
  intros n. revert st. induction n as [|n IH]; intros st; [now split|].
  destruct (IH (idle env st)) as [Hrun Hf].
  rewrite Nat.iter_succ_r. split.
  - simpl. unfold mbind, M_bind.
    rewrite (run_cycle_outside st) by now apply inverted_window_closed.
    exact Hrun.
  - rewrite Hf. simpl. rewrite fetched_pairs_app. simpl. apply app_nil_r.
Qed.

(** *** The loop of [run] *)

Lemma run_cycle_returns (st : state) :
  raises_errors_only (self st) ->
  table_covers (self st) (PAIRS g) ->
  fst (run_cycle env g st) = Ok tt.
Proof.
  intros Herr Hcov. destruct (session_open env g st) eqn:Hin.
  - rewrite (run_cycle_inside _ Hin). unfold polling, mbind, M_bind.
    now rewrite (for_each_poll_pair st (PAIRS g) Herr Hcov).
  - now rewrite (run_cycle_outside _ Hin).
Qed.

Lemma run_loop_returns n : forall st : state,
  raises_errors_only (self st) ->
  table_covers (self st) (PAIRS g) ->
  fst (run_loop env g n st) = Ok tt
  /\ exists added,
      trace (snd (run_loop env g n st)) = (trace st ++ added)%list
      /\ length (sleeps added) = n.
Proof.
  induction n as [|n IH]; intros st Herr Hcov; simpl.
  - split; [reflexivity|]. exists []. now rewrite app_nil_r.
  - unfold mbind, M_bind.
    pose proof (run_cycle_returns st Herr Hcov) as Hok.
    pose proof (run_cycle_self st) as Hself.
    destruct (run_cycle_sleeps st) as (a1 & Htr1 & Hs1).
    destruct (run_cycle env g st) as [[[]|e] s1]; simpl in *; [|discriminate].
    destruct Hs1 as (before & -> & Hb).
    rewrite <- Hself in Herr, Hcov.
    destruct (IH s1 Herr Hcov) as (Hok2 & a2 & Htr2 & Hlen).
    split; [assumption|].
    eexists. rewrite Htr2, Htr1, <- app_assoc. split; [reflexivity|].
    rewrite !sleeps_app, Hb, length_app. simpl. now rewrite Hlen.
Qed.

(** X12 ([run] never ends by itself). With collaborators that raise
    errors only and a table that covers the configured pairs (as [__init__]
    builds it), [run] logs its start record and then, however many cycles it
    is followed for, every one of them returns normally: after [n] cycles
    the loop is still running and has slept exactly [n] times. *)
Theorem run_goes_on_cycle_after_cycle (st : state) (n : nat) :
  raises_errors_only (self st) ->
  table_covers (self st) (PAIRS g) ->
  fst (run env g n st) = Ok tt
  /\ exists added,
      trace (snd (run env g n st))
      = (trace st ++ Elog INFO "Obot Core Framework Started – Broker-Agnostic Mode"
                     :: added)%list
      /\ length (sleeps added) = n.
Proof.
  intros Herr Hcov. unfold run.
  change ((logging_info "Obot Core Framework Started – Broker-Agnostic Mode" ;;
           run_loop env g n) st)
    with (run_loop env g n (started st)).
  destruct (run_loop_returns n (started st) Herr Hcov) as (Hok & added & Htr & Hlen).
  split; [assumption|]. exists added. split; [|assumption].
  rewrite Htr. simpl. now rewrite <- app_assoc.
Qed.

(** *** The trader *)

Lemma poll_pair_with_trader tr pair (st : state) :
  poll_pair g pair (with_trader tr st)
  = (fst (poll_pair g pair st), with_trader tr (snd (poll_pair g pair st))).
Proof.
  poll_pair_cases st pair; try (destruct (is_Exception e); simpl); reflexivity.
Qed.

Lemma for_each_with_trader tr pairs : forall st : state,
  for_each pairs (poll_pair g) (with_trader tr st)
  = (fst (for_each pairs (poll_pair g) st),
     with_trader tr (snd (for_each pairs (poll_pair g) st))).
Proof.
  induction pairs as [|q pairs IH]; intros st; simpl; [reflexivity|].
  unfold mbind, M_bind. rewrite poll_pair_with_trader.
  destruct (poll_pair g q st) as [[[]|e] s1]; simpl; [apply IH|reflexivity].
Qed.

Lemma run_cycle_with_trader tr (st : state) :
  run_cycle env g (with_trader tr st)
  = (fst (run_cycle env g st), with_trader tr (snd (run_cycle env g st))).
Proof.
  destruct (session_open env g st) eqn:Hin.
  - rewrite (run_cycle_inside st Hin), (run_cycle_inside (with_trader tr st) Hin).
    unfold polling, mbind, M_bind. rewrite for_each_with_trader.
    destruct (for_each (PAIRS g) (poll_pair g) st) as [[[]|e] s1]; reflexivity.
  - now rewrite (run_cycle_outside st Hin), (run_cycle_outside (with_trader tr st) Hin).
Qed.

Lemma run_loop_with_trader tr n : forall st : state,
  run_loop env g n (with_trader tr st)
  = (fst (run_loop env g n st), with_trader tr (snd (run_loop env g n st))).
Proof.
  induction n as [|n IH]; intros st; simpl; [reflexivity|].
  unfold mbind, M_bind. rewrite run_cycle_with_trader.
  destruct (run_cycle env g st) as [[[]|e] s1]; simpl; [apply IH|reflexivity].
Qed.

(** X13 (the trader is held, never consulted). Replacing the trader of
    the object by any other changes nothing in what [run] does: the same
    outcome, the same world and the same trace after any number of cycles.
    The core reads [self.trader] nowhere; the only call of it is a
    comment. *)
Theorem trader_is_never_consulted (tr : @Trader W) (n : nat) (st : state) :
  run env g n (with_trader tr st)
  = (fst (run env g n st), with_trader tr (snd (run env g n st))).
Proof.
  unfold run.
  change ((logging_info "Obot Core Framework Started – Broker-Agnostic Mode" ;;
           run_loop env g n) (with_trader tr st))
    with (run_loop env g n (with_trader tr (started st))).
  change ((logging_info "Obot Core Framework Started – Broker-Agnostic Mode" ;;
           run_loop env g n) st)
    with (run_loop env g n (started st)).
  apply run_loop_with_trader.
Qed.

(** *** The cap and the states the object reaches *)

Lemma reachable_count dp tr str (st : state) pair :
  reachable env g dp tr str st -> pair ∈ PAIRS g ->
  active_positions (self st) !! pair = Some 0.
Proof.
  intros Hreach Hin. rewrite (reachable_self _ _ _ _ Hreach). simpl.
  rewrite init_table_lookup. now rewrite decide_True.
Qed.

Lemma filter_all {A} (f : A -> bool) (l : list A) :
  (forall x, x ∈ l -> f x = true) -> List.filter f l = l.
Proof.
  induction l as [|x l IH]; intros H; simpl; [reflexivity|].
  rewrite (H x) by left. f_equal. apply IH. intros y Hy. apply H. now right.
Qed.

Lemma for_each_all_at_cap pairs (st : state) :
  (forall pair, pair ∈ pairs -> at_cap g st pair) ->
  for_each pairs (poll_pair g) st = (Ok tt, st).
Proof.
  induction pairs as [|q pairs IH]; intros H; simpl; [reflexivity|].
  unfold mbind, M_bind. rewrite (poll_pair_at_cap st q) by (apply H; left).
  apply IH. intros p Hp. apply H. now right.
Qed.

(** X14 (the cap is never reached). When the cap is at least 1, in every
    state the object reaches from [__init__] by turns and cycles every
    configured pair is below its cap, since nothing ever raises a count above
    zero; so a cycle inside the session window that returns normally has asked
    for the candles of every configured pair, in configuration order. *)
Theorem cap_is_never_reached
  (dp : @DataProvider W DataFrame) (tr : @Trader W) (str : @Strategy W DataFrame)
  (st : state) :
  0 < MAX_CONCURRENT_TRADES_PER_PAIR g ->
  reachable env g dp tr str st ->
  (forall pair, pair ∈ PAIRS g -> under_cap g st pair)
  /\ (session_open env g st = true ->
      fst (run_cycle env g st) = Ok tt ->
      fetched_pairs (trace (snd (run_cycle env g st)))
      = (fetched_pairs (trace st) ++ PAIRS g)%list).
Proof.
  intros Hmax Hreach.
  assert (Hunder : forall pair, pair ∈ PAIRS g -> under_cap g st pair).
  { intros pair Hin. exists 0. split; [|assumption].
    eapply reachable_count; eauto. }
  split; [assumption|]. intros Hin Hok.
  rewrite (run_cycle_inside _ Hin) in *. unfold polling, mbind, M_bind in *.
  destruct (for_each_fetched (PAIRS g) st) as (done & Htr & _ & Hall).
  destruct (for_each (PAIRS g) (poll_pair g) st) as [[[]|e] st1]; simpl in *;
    [|discriminate].
  unfold_M. simpl. rewrite fetched_pairs_app, Htr. simpl. rewrite app_nil_r.
  rewrite Hall by reflexivity. f_equal. apply filter_all.
  intros pair Hp. apply under_cap_below. now apply Hunder.
Qed.

(** X15 (a cap of zero or less switches polling off). When the cap is not
    positive, every configured pair of an object built by [__init__] is at its
    cap from the start and stays there: a cycle entered inside the session
    window, in any state the object reaches, makes no call at all and only
    sleeps 60 seconds. *)
Theorem nonpositive_cap_switches_polling_off
  (dp : @DataProvider W DataFrame) (tr : @Trader W) (str : @Strategy W DataFrame)
  (st : state) :
  MAX_CONCURRENT_TRADES_PER_PAIR g <= 0 ->
  reachable env g dp tr str st ->
  session_open env g st = true ->
  run_cycle env g st =
    (Ok tt, {| self := self st;
               world := sleep env 60 (world st);
               trace := trace st ++ [Esleep 60] |}).
Proof.
  intros Hmax Hreach Hin. rewrite (run_cycle_inside _ Hin).
  unfold polling, mbind, M_bind. rewrite for_each_all_at_cap; [reflexivity|].
  intros pair Hp. exists 0. split; [|assumption]. eapply reachable_count; eauto.
Qed.

(** *** Calls and records of a cycle *)

Lemma signalled_pairs_app l1 l2 :
  signalled_pairs (l1 ++ l2)%list = (signalled_pairs l1 ++ signalled_pairs l2)%list.
Proof. apply omap_app. Qed.

Lemma log_records_app l1 l2 :
  log_records (l1 ++ l2)%list = (log_records l1 ++ log_records l2)%list.
Proof. apply omap_app. Qed.

Lemma turn_shape_calls pair r added :
  turn_shape pair r added ->
  signalled_pairs added `sublist_of` fetched_pairs added
  /\ (length (log_records added) <= length (fetched_pairs added))%nat.
Proof.
  intros Hshape. destruct Hshape; simpl; (split; [|lia]);
    first [apply sublist_nil_l|reflexivity].
Qed.

Lemma for_each_calls pairs : forall s : state,
  exists added,
    trace (snd (for_each pairs (poll_pair g) s)) = (trace s ++ added)%list
    /\ signalled_pairs added `sublist_of` fetched_pairs added
    /\ (length (log_records added) <= length (fetched_pairs added))%nat.
Proof.
  induction pairs as [|q pairs IH]; intros s; simpl.
  - exists []. rewrite app_nil_r. split; [reflexivity|]. split; [reflexivity|simpl; lia].
  - unfold mbind, M_bind. destruct (poll_pair_shape s q) as (a1 & Htr & Hshape).
    apply turn_shape_calls in Hshape as [Hsub Hlen].
    unfold turn in Htr. destruct (poll_pair g q s) as [[[]|e] s1]; simpl in *.
    + destruct (IH s1) as (a2 & Htr2 & Hsub2 & Hlen2). exists (a1 ++ a2)%list.
      rewrite Htr2, Htr, app_assoc. split; [reflexivity|].
      rewrite signalled_pairs_app, fetched_pairs_app, log_records_app, !length_app.
      split; [now apply sublist_app|lia].
    + exists a1. now split.
Qed.

(** X16 (what a cycle inside the window calls and logs). For any
    collaborators: in what a cycle entered inside the session window adds to
    the trace, the pairs passed to the signal generator are, in order, among
    the pairs whose candles were fetched (no signal call without its fetch),
    there are never more log records than fetches (at most one record per
    instrument polled), and never more fetches than configured pairs. *)
Theorem cycle_calls_and_records (st : state) :
  session_open env g st = true ->
  exists added,
    trace (snd (run_cycle env g st)) = (trace st ++ added)%list
    /\ signalled_pairs added `sublist_of` fetched_pairs added
    /\ (length (log_records added) <= length (fetched_pairs added))%nat
    /\ (length (fetched_pairs added) <= length (PAIRS g))%nat.
Proof.
  intros Hin. rewrite (run_cycle_inside _ Hin). unfold polling, mbind, M_bind.
  destruct (for_each_calls (PAIRS g) st) as (added & Htr & Hsub & Hlen).
  destruct (for_each_fetched (PAIRS g) st) as (done & Hf & Hpre & _).
  assert (Hdone : fetched_pairs added = done).
  { rewrite Htr, fetched_pairs_app in Hf. now apply app_inv_head in Hf. }
  assert (Hle : (length (fetched_pairs added) <= length (PAIRS g))%nat).
  { rewrite Hdone. apply prefix_length in Hpre.
    pose proof (List.filter_length_le (below_cap g (self st)) (PAIRS g)). lia. }
  destruct (for_each (PAIRS g) (poll_pair g) st) as [[[]|e] st1]; simpl in *.
  - exists (added ++ [Esleep 60])%list. unfold_M. simpl.
    rewrite Htr, <- app_assoc. split; [reflexivity|].
    rewrite signalled_pairs_app, fetched_pairs_app, log_records_app. simpl.
    rewrite !app_nil_r. now split.
  - exists added. now split.
Qed.

(** X17 (the keys of the table). The table [__init__] builds has an
    entry, with count 0, for exactly the configured pairs (a pair listed twice
    has one entry); for any other pair there is none, so that a turn for it
    would raise KeyError. *)
Theorem table_has_exactly_the_configured_pairs
  (dp : @DataProvider W DataFrame) (tr : @Trader W) (str : @Strategy W DataFrame)
  (pair : string) :
  (pair ∈ PAIRS g <-> active_positions (init g dp tr str) !! pair = Some 0)
  /\ (pair ∉ PAIRS g <-> active_positions (init g dp tr str) !! pair = None)
  /\ (pair ∉ PAIRS g ->
      forall st : state, self st = init g dp tr str ->
        poll_pair g pair st = (Raise (KeyError pair), st)).
Proof.
  assert (Hl : active_positions (init g dp tr str) !! pair
               = if decide (pair ∈ PAIRS g) then Some 0 else None).
  { simpl. rewrite init_table_lookup. now rewrite lookup_empty. }
  rewrite Hl. destruct (decide (pair ∈ PAIRS g)) as [Hin|Hnin].
  - split; [tauto|]. split; [split; [tauto|discriminate]|tauto].
  - split; [split; [tauto|discriminate]|]. split; [tauto|].
    intros _ st Hself. apply poll_pair_no_entry. now rewrite Hself.
Qed.

End CoreProperties.

(** * The claims at the concrete deployment *)

Section AtDeployment.
Import Deployment.

Lemma C4_counterexample :
  lt0 f_neg_1000 = true
  /\ calculate_lot_size f_neg_1000 f_0_01 f_20 = Ok f_neg_0_05
  /\ ~ (forall b r d : float,
          wf b = true -> wf r = true -> wf d = true ->
          le0 d = true \/ lt0 b = true \/ le0 r = true \/ SFltb one r = true ->
          exists e, calculate_lot_size b r d = Raise e
                    /\ exn_class e = "InvalidInput").
Proof.
  split; [reflexivity|]. split; [vm_compute; reflexivity|].
  intros H.
  destruct (H f_neg_1000 f_0_01 f_20) as (e & He & _);
    [reflexivity|reflexivity|reflexivity|right; left; reflexivity|].
  vm_compute in He. discriminate He.
Qed.

Lemma C4_only_a_zero_stop_distance_raises_witness :
  calculate_lot_size f_1000 f_0_01 f_zero = Raise ZeroDivisionError
  /\ exists size, calculate_lot_size f_neg_1000 f_0_01 f_20 = Ok size.
Proof.
  split.
  - apply (proj1 (C4_only_a_zero_stop_distance_raises
                    f_1000 f_0_01 f_zero eq_refl)).
    reflexivity.
  - apply (proj2 (C4_only_a_zero_stop_distance_raises
                    f_neg_1000 f_0_01 f_20 eq_refl)).
    reflexivity.
Defined.

Lemma C5_size_is_the_formula_witness :
  valid_inputs f_1000 f_0_01 f_20 = true
  /\ calculate_lot_size f_1000 f_0_01 f_20 = Ok f_0_05.
Proof.
  split; [reflexivity|].
  rewrite (proj1 (C5_size_is_the_formula f_1000 f_0_01 f_20 eq_refl)).
  vm_compute. reflexivity.
Defined.

Lemma C6_counterexample :
  valid_inputs f_4 f_0_01 f_1 = true
  /\ calculate_lot_size (fmul two f_4) f_0_01 f_1 = Ok f_0_01
  /\ calculate_lot_size f_4 f_0_01 f_1 = Ok f_zero
  /\ SFeqb f_0_01 (fmul two f_zero) = false
  /\ ~ (forall b r d : float,
          valid_inputs b r d = true ->
          exists x y,
            calculate_lot_size (fmul two b) r d = Ok x
            /\ calculate_lot_size b r d = Ok y
            /\ SFeqb x (fmul two y) = true).
Proof.
  split; [reflexivity|]. split; [vm_compute; reflexivity|].
  split; [vm_compute; reflexivity|]. split; [reflexivity|].
  intros H. destruct (H f_4 f_0_01 f_1 eq_refl) as (x & y & Hx & Hy & Heq).
  vm_compute in Hx. vm_compute in Hy.
  injection Hx as <-. injection Hy as <-.
  vm_compute in Heq. discriminate Heq.
Qed.

Lemma C6_lot_size_doubles_before_rounding_witness :
  lot_size f_4 f_0_01 f_1 = Ok f_0_004
  /\ lot_size (fmul two f_4) f_0_01 f_1 = Ok f_0_008
  /\ calculate_lot_size (fmul two f_4) f_0_01 f_1 = Ok (round2 f_0_008).
Proof.
  assert (Hlot : lot_size f_4 f_0_01 f_1 = Ok f_0_004) by (vm_compute; reflexivity).
  destruct (C6_lot_size_doubles_before_rounding f_4 f_0_01 f_1 f_0_004
              eq_refl eq_refl eq_refl eq_refl Hlot eq_refl)
    as (H2 & _ & H3 & _).
  split; [exact Hlot|]. split; [exact H2|exact H3].
Defined.

Lemma C7_counterexample :
  valid_inputs f_inf f_0_01 f_1e308 = true
  /\ calculate_lot_size f_inf f_0_01 f_1e308 = Ok S754_nan
  /\ ge0 S754_nan = false
  /\ SFeqb S754_nan S754_nan = false
  /\ ~ (forall b r d : float,
          valid_inputs b r d = true ->
          exists size,
            calculate_lot_size b r d = Ok size
            /\ ge0 size = true
            /\ SFeqb size size = true).
Proof.
  split; [reflexivity|]. split; [vm_compute; reflexivity|].
  split; [reflexivity|]. split; [reflexivity|].
  intros H. destruct (H f_inf f_0_01 f_1e308 eq_refl) as (size & Hs & Hge & _).
  vm_compute in Hs. injection Hs as <-. discriminate Hge.
Qed.

Lemma C7_size_is_nonnegative_and_repeatable_witness :
  valid_inputs f_1000 f_0_01 f_20 = true
  /\ exists size,
      calculate_lot_size f_1000 f_0_01 f_20 = Ok size
      /\ ge0 size = true
      /\ SFeqb size size = true.
Proof.
  split; [reflexivity|].
  apply (proj1 (C7_size_is_nonnegative_and_repeatable
                  f_1000 f_0_01 f_20 eq_refl)).
  left. reflexivity.
Defined.

Lemma C1_instrument_failure_is_isolated_witness :
  run_cycle env globals3 (at_time bot (Time 9 30 0 0))
  = (Ok tt,
     {| self := bot;
        world := (Time 9 30 0 0, ["A"; "B"; "C"]);
        trace := [Efetch_candles "A" "H1" 100; Egenerate_signal "A";
                  Efetch_candles "B" "H1" 100;
                  Elog ERROR "Error processing B: broker down";
                  Efetch_candles "C" "H1" 100; Egenerate_signal "C";
                  Esleep 60] |}).
Proof.
  destruct (C1_instrument_failure_is_isolated env globals3
              (at_time bot (Time 9 30 0 0))) as (Hrun & _ & _).
  - reflexivity.
  - split.
    + intros pair tf n w e w'. simpl.
      destruct (String.eqb pair "B"); [|discriminate].
      intros [= <- _]. reflexivity.
    + intros pair data w e w'. simpl. discriminate.
  - apply init_table_covers.
  - rewrite Hrun. reflexivity.
Defined.

Lemma C2_session_window_is_inclusive_witness :
  trace (snd (run_cycle env module_globals (at_time bot7 (Time 7 59 0 0))))
  = [Elog INFO "Outside trading session – sleeping"; Esleep 300]
  /\ trace (snd (run_cycle env module_globals (at_time bot7 (Time 12 0 0 1))))
     = [Elog INFO "Outside trading session – sleeping"; Esleep 300]
  /\ head (trace (snd (run_cycle env module_globals (at_time bot7 (Time 8 0 0 0)))))
     = Some (Efetch_candles "EURUSD" "H1" 100)
  /\ run_cycle env module_globals (at_time bot7 (Time 12 0 0 0))
     = (for_each (PAIRS module_globals) (poll_pair module_globals)
        ;; time_sleep env 60) (at_time bot7 (Time 12 0 0 0)).
Proof.
  split; [|split; [|split]].
  - rewrite (proj1 (C2_session_window_is_inclusive env module_globals
                      (at_time bot7 (Time 7 59 0 0)) eq_refl));
      [reflexivity|left; reflexivity].
  - rewrite (proj1 (C2_session_window_is_inclusive env module_globals
                      (at_time bot7 (Time 12 0 0 1)) eq_refl));
      [reflexivity|right; reflexivity].
  - rewrite (proj2 (C2_session_window_is_inclusive env module_globals
                      (at_time bot7 (Time 8 0 0 0)) eq_refl));
      [reflexivity|left; reflexivity].
  - apply (proj2 (C2_session_window_is_inclusive env module_globals
                    (at_time bot7 (Time 12 0 0 0)) eq_refl)).
    right; reflexivity.
Defined.

Lemma C3_at_cap_no_fetch_no_signal_witness :
  poll_pair globals3 "B" (at_time bot_B_open (Time 9 30 0 0))
  = (Ok tt, at_time bot_B_open (Time 9 30 0 0))
  /\ exists added,
      trace (snd (run_cycle env globals3 (at_time bot_B_open (Time 9 30 0 0))))
      = ([] ++ added)%list
      /\ forall tf n, (Efetch_candles "B" tf n ∉ added)
                      /\ (Egenerate_signal "B" ∉ added).
Proof.
  apply (C3_at_cap_no_fetch_no_signal env globals3
           (at_time bot_B_open (Time 9 30 0 0)) "B" 1); [reflexivity|simpl; lia].
Defined.

Lemma C8_signal_zero_is_not_actionable_witness :
  poll_pair globals3 "A" (at_time bot (Time 9 30 0 0))
  = (Ok tt,
     {| self := bot;
        world := (Time 9 30 0 0, ["A"]);
        trace := [Efetch_candles "A" "H1" 100; Egenerate_signal "A"] |})
  /\ exists added,
      trace (snd (run_cycle env globals3 (at_time bot (Time 9 30 0 0))))
      = ([] ++ added)%list
      /\ forall method, Etrader method ∉ added.
Proof.
  apply (C8_signal_zero_is_not_actionable env globals3
           (at_time bot (Time 9 30 0 0)) "A" tt (Time 9 30 0 0, ["A"])
           {[ "signal" := VInt 0 ]} (Time 9 30 0 0, ["A"])).
  - exists 0. split; [reflexivity|simpl; lia].
  - reflexivity.
  - reflexivity.
  - reflexivity.
Defined.

Lemma C9_table_is_zero_and_never_modified_witness :
  (forall pair, pair ∈ PAIRS module_globals ->
     active_positions bot7 !! pair = Some 0)
  /\ (forall st,
        reachable env module_globals flaky_provider Trader_base Strategy_base st ->
        forall pair count,
          active_positions (self st) !! pair = Some count ->
          count = 0 /\ count <= 1).
Proof.
  assert (H : 0 <= MAX_CONCURRENT_TRADES_PER_PAIR module_globals) by (simpl; lia).
  split.
  - apply (proj1 (C9_table_is_zero_and_never_modified env module_globals
                    flaky_provider Trader_base Strategy_base H)).
  - apply (proj2 (proj2 (proj2 (proj2
             (C9_table_is_zero_and_never_modified env module_globals
                flaky_provider Trader_base Strategy_base H))))).
Defined.

Lemma C10_missing_signal_key_is_no_signal_witness :
  poll_pair globals3 "A" (at_time bot_quiet (Time 9 30 0 0))
  = (Ok tt,
     {| self := bot_quiet;
        world := (Time 9 30 0 0, ["A"]);
        trace := [Efetch_candles "A" "H1" 100; Egenerate_signal "A"] |}).
Proof.
  apply (C10_missing_signal_key_is_no_signal globals3
           (at_time bot_quiet (Time 9 30 0 0)) "A" tt (Time 9 30 0 0, ["A"])
           {[ "confidence" := VInt 1 ]} (Time 9 30 0 0, ["A"])).
  - exists 0. split; [reflexivity|simpl; lia].
  - reflexivity.
  - reflexivity.
  - reflexivity.
Defined.


(** ** The further properties at the deployment *)

Lemma actionable_signal_is_logged_with_its_direction_witness :
  poll_pair globals3 "A" (at_time bot_keen (Time 9 30 0 0))
  = (Ok tt,
     {| self := bot_keen;
        world := (Time 9 30 0 0, ["A"]);
        trace := [Efetch_candles "A" "H1" 100; Egenerate_signal "A";
                  Elog INFO "A | SIGNAL: BUY"] |})
  /\ poll_pair globals3 "C" (at_time bot_keen (Time 9 30 0 0))
     = (Ok tt,
        {| self := bot_keen;
           world := (Time 9 30 0 0, ["C"]);
           trace := [Efetch_candles "C" "H1" 100; Egenerate_signal "C";
                     Elog INFO "C | SIGNAL: SELL"] |})
  /\ poll_pair globals3 "A" (at_time bot_nan (Time 9 30 0 0))
     = (Ok tt,
        {| self := bot_nan;
           world := (Time 9 30 0 0, ["A"]);
           trace := [Efetch_candles "A" "H1" 100; Egenerate_signal "A";
                     Elog INFO "A | SIGNAL: SELL"] |}).
Proof.
  split; [|split].
  - apply (proj1 (actionable_signal_is_logged_with_its_direction globals3
                    (at_time bot_keen (Time 9 30 0 0)) "A" tt (Time 9 30 0 0, ["A"])
                    {[ "signal" := VInt 1 ]} (Time 9 30 0 0, ["A"]) (VInt 1) true
                    (ex_intro _ 0 (conj eq_refl eq_refl))
                    eq_refl eq_refl eq_refl eq_refl eq_refl)).
  - apply (proj1 (actionable_signal_is_logged_with_its_direction globals3
                    (at_time bot_keen (Time 9 30 0 0)) "C" tt (Time 9 30 0 0, ["C"])
                    {[ "signal" := VInt (-1) ]} (Time 9 30 0 0, ["C"]) (VInt (-1)) false
                    (ex_intro _ 0 (conj eq_refl eq_refl))
                    eq_refl eq_refl eq_refl eq_refl eq_refl)).
  - apply (proj1 (actionable_signal_is_logged_with_its_direction globals3
                    (at_time bot_nan (Time 9 30 0 0)) "A" tt (Time 9 30 0 0, ["A"])
                    {[ "signal" := VFloat S754_nan ]} (Time 9 30 0 0, ["A"])
                    (VFloat S754_nan) false
                    (ex_intro _ 0 (conj eq_refl eq_refl))
                    eq_refl eq_refl eq_refl eq_refl eq_refl)).
Defined.

Lemma malformed_decision_is_logged_and_skipped_witness :
  (exists e,
      exn_class e = "AttributeError"
      /\ poll_pair globals3 "A" (at_time bot_forgetful (Time 9 30 0 0))
         = (Ok tt,
            {| self := bot_forgetful;
               world := (Time 9 30 0 0, ["A"]);
               trace := [Efetch_candles "A" "H1" 100; Egenerate_signal "A";
                         Elog ERROR ("Error processing A: " ++ exn_str e)] |}))
  /\ (exists e,
      exn_class e = "TypeError"
      /\ poll_pair globals3 "A" (at_time bot_undecided (Time 9 30 0 0))
         = (Ok tt,
            {| self := bot_undecided;
               world := (Time 9 30 0 0, ["A"]);
               trace := [Efetch_candles "A" "H1" 100; Egenerate_signal "A";
                         Elog ERROR ("Error processing A: " ++ exn_str e)] |})).
Proof.
  split.
  - apply (malformed_decision_is_logged_and_skipped globals3
             (at_time bot_forgetful (Time 9 30 0 0)) "A" tt (Time 9 30 0 0, ["A"])
             (OVal VNone) (Time 9 30 0 0, ["A"])).
    + exists 0. split; [reflexivity|simpl; lia].
    + reflexivity.
    + reflexivity.
    + exact I.
  - apply (malformed_decision_is_logged_and_skipped globals3
             (at_time bot_undecided (Time 9 30 0 0)) "A" tt (Time 9 30 0 0, ["A"])
             (ODict {[ "signal" := VNone ]}) (Time 9 30 0 0, ["A"])).
    + exists 0. split; [reflexivity|simpl; lia].
    + reflexivity.
    + reflexivity.
    + left. reflexivity.
Defined.

Lemma turn_does_not_catch_interrupts_witness :
  poll_pair globals3 "B" (at_time bot_interrupted (Time 9 30 0 0))
  = (Raise KeyboardInterrupt,
     {| self := bot_interrupted;
        world := (Time 9 30 0 0, ["B"]);
        trace := [Efetch_candles "B" "H1" 100] |}).
Proof.
  apply (proj1 (turn_does_not_catch_interrupts globals3
                  (at_time bot_interrupted (Time 9 30 0 0)) "B" KeyboardInterrupt
                  (ex_intro _ 0 (conj eq_refl eq_refl)) eq_refl)
           (Time 9 30 0 0, ["B"])).
  reflexivity.
Defined.

Lemma raise_in_a_turn_ends_the_cycle_and_the_loop_witness :
  run env globals3 3 (at_time bot_interrupted (Time 9 30 0 0))
  = (Raise KeyboardInterrupt,
     {| self := bot_interrupted;
        world := (Time 9 30 0 0, ["A"; "B"]);
        trace := [Elog INFO "Obot Core Framework Started – Broker-Agnostic Mode";
                  Efetch_candles "A" "H1" 100; Egenerate_signal "A";
                  Efetch_candles "B" "H1" 100] |}).
Proof.
  destruct (raise_in_a_turn_ends_the_cycle_and_the_loop env globals3
              (at_time bot_interrupted (Time 9 30 0 0))
              {| self := bot_interrupted;
                 world := (Time 9 30 0 0, ["A"]);
                 trace := [Elog INFO "Obot Core Framework Started – Broker-Agnostic Mode";
                           Efetch_candles "A" "H1" 100; Egenerate_signal "A"] |}
              {| self := bot_interrupted;
                 world := (Time 9 30 0 0, ["A"; "B"]);
                 trace := [Elog INFO "Obot Core Framework Started – Broker-Agnostic Mode";
                           Efetch_candles "A" "H1" 100; Egenerate_signal "A";
                           Efetch_candles "B" "H1" 100] |}
              ["A"] "B" ["C"] KeyboardInterrupt) as [_ Hrun];
    [reflexivity ..|].
  exact (Hrun 2%nat).
Defined.

Lemma pair_without_entry_raises_KeyError_witness :
  run_cycle env globals3 (at_time bot_without_B (Time 9 30 0 0))
  = (Raise (KeyError "B"),
     {| self := bot_without_B;
        world := (Time 9 30 0 0, ["A"]);
        trace := [Efetch_candles "A" "H1" 100; Egenerate_signal "A"] |}).
Proof.
  destruct (pair_without_entry_raises_KeyError env globals3
              (at_time bot_without_B (Time 9 30 0 0)) ["A"] "B" ["C"]) as [_ Hrun].
  - reflexivity.
  - split.
    + intros pair tf n w e w'. simpl. discriminate.
    + intros pair data w e w'. simpl. discriminate.
  - reflexivity.
  - intros pair Hin. apply list_elem_of_singleton in Hin. subst pair.
    exists 0. reflexivity.
  - reflexivity.
  - rewrite Hrun. reflexivity.
Defined.

Lemma base_data_provider_cycle_witness :
  run_cycle env globals3 (at_time bot_base (Time 9 30 0 0))
  = (Ok tt,
     {| self := bot_base;
        world := (Time 9 30 0 0, []);
        trace := [Efetch_candles "A" "H1" 100; Elog ERROR "Error processing A: ";
                  Efetch_candles "B" "H1" 100; Elog ERROR "Error processing B: ";
                  Efetch_candles "C" "H1" 100; Elog ERROR "Error processing C: ";
                  Esleep 60] |}).
Proof.
  rewrite (base_data_provider_cycle env globals3 (at_time bot_base (Time 9 30 0 0))
             eq_refl eq_refl
             (init_table_covers globals3 DataProvider_base Trader_base Strategy_base)).
  reflexivity.
Defined.

Lemma base_strategy_cycle_witness :
  fst (run_cycle env globals3 (at_time bot_steady (Time 9 30 0 0))) = Ok tt
  /\ trace (snd (run_cycle env globals3 (at_time bot_steady (Time 9 30 0 0))))
     = [Efetch_candles "A" "H1" 100; Egenerate_signal "A";
        Efetch_candles "B" "H1" 100; Egenerate_signal "B";
        Efetch_candles "C" "H1" 100; Egenerate_signal "C";
        Esleep 60].
Proof.
  destruct (base_strategy_cycle env globals3 (at_time bot_steady (Time 9 30 0 0))
              eq_refl eq_refl
              (fun pair tf n w => ex_intro _ tt (ex_intro _ _ eq_refl))
              (init_table_covers globals3 steady_provider Trader_base Strategy_base))
    as [Hok Htr].
  split; [exact Hok|]. rewrite Htr. reflexivity.
Defined.

Lemma window_over_midnight_is_never_open_witness :
  session_open env globals_night (at_time bot (Time 23 0 0 0)) = false
  /\ trace (snd (run_cycle env globals_night (at_time bot (Time 23 0 0 0))))
     = [Elog INFO "Outside trading session – sleeping"; Esleep 300].
Proof.
  destruct (window_over_midnight_is_never_open env globals_night
              (at_time bot (Time 23 0 0 0)) eq_refl) as (Hclosed & Hrun & _).
  split; [exact Hclosed|]. rewrite Hrun. reflexivity.
Defined.

Lemma run_goes_on_cycle_after_cycle_witness :
  fst (run env globals3 2 (at_time bot (Time 9 30 0 0))) = Ok tt
  /\ exists added,
      trace (snd (run env globals3 2 (at_time bot (Time 9 30 0 0))))
      = ([] ++ Elog INFO "Obot Core Framework Started – Broker-Agnostic Mode"
               :: added)%list
      /\ length (sleeps added) = 2%nat.
Proof.
  apply (run_goes_on_cycle_after_cycle env globals3 (at_time bot (Time 9 30 0 0)) 2).
  - split.
    + intros pair tf n w e w'. simpl.
      destruct (String.eqb pair "B"); [|discriminate].
      intros [= <- _]. reflexivity.
    + intros pair data w e w'. simpl. discriminate.
  - apply init_table_covers.
Defined.

Lemma cap_is_never_reached_witness :
  fetched_pairs (trace (snd (run_cycle env globals3 (at_time bot_steady (Time 9 30 0 0)))))
  = ["A"; "B"; "C"].
Proof.
  destruct (cap_is_never_reached env globals3 steady_provider Trader_base Strategy_base
              (at_time bot_steady (Time 9 30 0 0))) as [_ Hall].
  - simpl. lia.
  - apply reach_init.
  - rewrite (Hall eq_refl eq_refl). reflexivity.
Defined.

Lemma nonpositive_cap_switches_polling_off_witness :
  run_cycle env globals_cap0 (at_time bot_cap0 (Time 9 30 0 0))
  = (Ok tt,
     {| self := bot_cap0;
        world := (Time 9 30 0 0, []);
        trace := [Esleep 60] |}).
Proof.
  apply (nonpositive_cap_switches_polling_off env globals_cap0
           steady_provider Trader_base Strategy_base
           (at_time bot_cap0 (Time 9 30 0 0))).
  - simpl. lia.
  - apply reach_init.
  - reflexivity.
Defined.

Lemma cycle_calls_and_records_witness :
  exists added,
    trace (snd (run_cycle env globals3 (at_time bot (Time 9 30 0 0))))
    = ([] ++ added)%list
    /\ signalled_pairs added `sublist_of` fetched_pairs added
    /\ (length (log_records added) <= length (fetched_pairs added))%nat
    /\ (length (fetched_pairs added) <= 3)%nat.
Proof.
  apply (cycle_calls_and_records env globals3 (at_time bot (Time 9 30 0 0)) eq_refl).
Defined.

Lemma nan_argument_gives_nan_size_witness :
  calculate_lot_size S754_nan f_0_01 f_20 = Ok S754_nan
  /\ calculate_lot_size f_1000 f_0_01 S754_nan = Ok S754_nan.
Proof.
  split.
  - apply (nan_argument_gives_nan_size S754_nan f_0_01 f_20 eq_refl eq_refl).
    left. reflexivity.
  - apply (nan_argument_gives_nan_size f_1000 f_0_01 S754_nan eq_refl eq_refl).
    right. right. reflexivity.
Defined.

Lemma zero_risk_amount_gives_zero_size_witness :
  exists size, calculate_lot_size f_zero f_0_01 f_20 = Ok size /\ is_zero size = true.
Proof.
  apply (zero_risk_amount_gives_zero_size f_zero f_0_01 f_20 eq_refl eq_refl).
  - intros H. vm_compute in H. discriminate H.
  - left. split; reflexivity.
Defined.

Lemma size_is_zero_up_to_half_a_hundredth_witness :
  exists size, calculate_lot_size f_4 f_0_01 f_1 = Ok size /\ is_zero size = true.
Proof.
  assert (Hlot : lot_size f_4 f_0_01 f_1 = Ok f_0_004) by (vm_compute; reflexivity).
  destruct (size_is_zero_up_to_half_a_hundredth f_4 f_0_01 f_1
              false 4611686018427388 (-60) Hlot) as (size & Hs & Hz & _).
  exists size. split; [exact Hs|]. apply Hz. split; [lia|].
  vm_compute. discriminate.
Defined.

End AtDeployment.
